(** * Notification endpoints: variant model, secret indirection, codec,
      update protocol and HTTP resource API.

    A shallow embedding of [notification/endpoint] (the [Slack] variant),
    and of [http/notification_endpoint.go] (handlers, HTTP client,
    client-side encoder), with the properties of the specification stated
    and proved over it.

    Conventions of the embedding.
    - A Go [*T] that may be [nil] is an [option T].
    - A Go [error] that is an [*influxdb.Error] is an [Error]; a function
      returning [(T, error)] returns a [result T].
    - A Go [map[string]interface{}] holding a JSON object is a
      [gmap string jvalue].
    - Types declared in other packages ([influxdb.ID], [time.Time]) are
      parameters of the development, together with their text codec; so
      are the functions of other packages that the embedded code calls
      ([url.Parse], the [httpc] transport, the label service). *)

From Stdlib Require Import String Ascii.
From stdpp Require Import base option list strings gmap.

Local Open Scope string_scope.

(** ** Errors *)

(** The [influxdb.Error] codes the embedded code uses. *)
Inductive ErrCode := EInvalid | ENotFound | EInternal.

Record Error := mkError { Code : ErrCode; Msg : string }.

(** The result of a Go function returning [(T, error)]. *)
Inductive result (A : Type) :=
| Ok (a : A)
| Err (e : Error).
Arguments Ok {A} a.
Arguments Err {A} e.

Definition rbind {A B} (r : result A) (k : A -> result B) : result B :=
  match r with
  | Ok a => k a
  | Err e => Err e
  end.

Notation "x <-- r ;; k" := (rbind r (fun x => k))
  (at level 100, r at next level, right associativity).

(** The result of a Go function that may also panic. *)
Inductive outcome (A : Type) :=
| Returns (a : A)
| Fails (e : Error)
| Panics.
Arguments Returns {A} a.
Arguments Fails {A} e.
Arguments Panics {A}.

Definition obind {A B} (o : outcome A) (k : A -> outcome B) : outcome B :=
  match o with
  | Returns a => k a
  | Fails e => Fails e
  | Panics => Panics
  end.

(** [*p = v]: a store through a pointer, which panics on [nil]; the
    pointer afterwards is what it was. *)
Definition storeThrough {A} (p : option A) (v : A) : outcome (option A) :=
  match p with
  | Some _ => Returns (Some v)
  | None => Panics
  end.

(** ** Text codecs

    [encoding.TextMarshaler] / [encoding.TextUnmarshaler], as implemented by
    [influxdb.ID] and [time.Time]: a text form, a partial parser that reads
    back what was written, and the Go zero value of the type. *)
Class TextCodec (A : Type) := {
  marshalText : A -> string;
  unmarshalText : string -> option A;
  zeroValue : A;
  unmarshal_marshal : forall a, unmarshalText (marshalText a) = Some a
}.

(** ** JSON objects on the wire *)

(** The JSON values that occur in an endpoint's wire object: strings, string
    arrays (label identifiers) and string-to-string objects (headers). *)
Inductive jvalue :=
| JStr (s : string)
| JStrList (l : list string)
| JStrMap (m : gmap string string).

(** ** Secret fields *)

(** [influxdb.SecretField]: a key string and a value pointer, as
    [Slack.BackfillSecretKeys] and the client's encoder use them. *)
Record SecretField := mkSecretField { Key : string; Value : option string }.

(** Modelled from the spec: [SecretField]'s JSON form (its marshaller is in
    package [influxdb], outside the embedded sources).  A secret is written
    as the empty string when
    it has no key and as ["secret: " + key] otherwise; the plaintext value
    plays no part. *)
Definition SecretField_String (s : SecretField) : string :=
  if decide (Key s = "") then "" else "secret: " +:+ Key s.

(** [SecretField]'s unmarshaller ([func (s *SecretField) UnmarshalJSON],
    package [influxdb]) is outside the embedded sources, and is a parameter
    of the model: the field it leaves for the JSON string of a public secret
    name.  Nothing is assumed of it; a statement that needs it to read back
    what [SecretField_String] wrote says so. *)
Class SecretReader := SecretField_UnmarshalJSON : string -> SecretField.

(** ** Status *)

(** Modelled from the spec: [influxdb.Status], a string type whose valid
    inhabitants are [active] and [inactive]. *)
Definition Status := string.
Definition Active : Status := "active".
Definition Inactive : Status := "inactive".

Definition Status_valid (s : Status) : bool :=
  bool_decide (s = Active) || bool_decide (s = Inactive).

Section Model.
Set Default Proof Using "Type".
Context {ID Time : Type}.
Context `{!TextCodec ID} `{!TextCodec Time}.
Context `{!EqDecision ID} `{!Countable ID}.
Context {secretReader : SecretReader}.

(** [url.Parse] of the Go standard library, seen through its error
    result: [Some msg] is a parse error with message [msg], [None] is
    success. *)
Variable url_Parse_err : string -> option string.

(** ** Variant model *)

(** Modelled from the spec: [influxdb.EndpointBase], the fields shared by
    every variant (identifier, organization, name, description, status,
    creation and last-update timestamps). *)
Record EndpointBase := mkEndpointBase {
  baseID : ID;
  baseOrgID : ID;
  baseName : string;
  baseDescription : string;
  baseStatus : Status;
  baseCreatedAt : Time;
  baseUpdatedAt : Time
}.

(** Modelled from the spec: [EndpointBase.Valid] (package [influxdb],
    outside the embedded sources).  Base fields pass when the name is non-empty and the status is
    one of [active], [inactive]; a failure is an [EInvalid] error. *)
Definition EndpointBase_Valid (b : EndpointBase) : option Error :=
  if decide (baseName b = "") then
    Some {| Code := EInvalid; Msg := "Notification Endpoint Name can't be empty" |}
  else if Status_valid (baseStatus b) then None
  else Some {| Code := EInvalid; Msg := "invalid status" |}.

Definition slackTokenSuffix : string := "-token".
Definition SlackType : string := "slack".

(** [endpoint.Slack]. *)
Record Slack := mkSlack {
  slackBase : EndpointBase;
  URL : string;
  Token : SecretField
}.

(** [func (s *Slack) BackfillSecretKeys()]. *)
Definition Slack_BackfillSecretKeys (s : Slack) : Slack :=
  if bool_decide (Key (Token s) = "") && bool_decide (Value (Token s) <> None) then
    {| slackBase := slackBase s;
       URL := URL s;
       Token := {| Key := marshalText (baseID (slackBase s)) +:+ slackTokenSuffix;
                   Value := Value (Token s) |} |}
  else s.

(** [func (s Slack) SecretFields() []influxdb.SecretField]. *)
Definition Slack_SecretFields (s : Slack) : list SecretField :=
  let arr : list SecretField := [] in
  let arr := if decide (Key (Token s) <> "") then (arr ++ [Token s])%list else arr in
  arr.

(** [func (s Slack) Valid() error]. *)
Definition Slack_Valid (s : Slack) : option Error :=
  match EndpointBase_Valid (slackBase s) with
  | Some err => Some err
  | None =>
    if decide (URL s = "") then
      Some {| Code := EInvalid; Msg := "slack endpoint URL must be provided" |}
    else if decide (URL s <> "") then
      match url_Parse_err (URL s) with
      | Some m =>
        Some {| Code := EInvalid; Msg := "slack endpoint URL is invalid: " +:+ m |}
      | None => None
      end
    else None
  end.

(** [func (s Slack) Type() string]. *)
Definition Slack_Type (_ : Slack) : string := SlackType.

(** Modelled from the spec: the JSON tags of [EndpointBase].  Its fields go
    under the wire names [id], [orgID], [name], [description], [status],
    [createdAt], [updatedAt]; an empty description is omitted, as in the
    expected bodies of the handler tests. *)
Definition EndpointBase_fields (b : EndpointBase) : gmap string jvalue :=
  let o : gmap string jvalue :=
    <["id" := JStr (marshalText (baseID b))]>
    (<["orgID" := JStr (marshalText (baseOrgID b))]>
    (<["name" := JStr (baseName b)]>
    (<["status" := JStr (baseStatus b)]>
    (<["createdAt" := JStr (marshalText (baseCreatedAt b))]>
    (<["updatedAt" := JStr (marshalText (baseUpdatedAt b))]> ∅))))) in
  if decide (baseDescription b = "") then o
  else <["description" := JStr (baseDescription b)]> o.

(** [func (s Slack) MarshalJSON() ([]byte, error)]: the fields of
    [slackAlias] (the base fields, ["url"], ["token"]) followed by
    ["type"]. *)
Definition Slack_MarshalJSON (s : Slack) : gmap string jvalue :=
  <["type" := JStr (Slack_Type s)]>
  (<["token" := JStr (SecretField_String (Token s))]>
  (<["url" := JStr (URL s)]>
  (EndpointBase_fields (slackBase s)))).

(** *** The HTTP-callback variant

    [endpoint.HTTP] is used by the embedded code (the client builds
    [&endpoint.HTTP{}], the tests build literals of it) and declared in a
    source file of its own. *)

Definition HTTPType : string := "http".
Definition httpTokenSuffix : string := "-token".
Definition httpUsernameSuffix : string := "-username".
Definition httpPasswordSuffix : string := "-password".

(** Modelled from the spec: the [endpoint.HTTP] struct, with the fields the
    handler tests set and expect. *)
Record HTTP := mkHTTP {
  httpBase : EndpointBase;
  httpURL : string;
  httpHeaders : gmap string string;
  httpToken : SecretField;
  httpUsername : SecretField;
  httpPassword : SecretField;
  httpAuthMethod : string;
  httpMethod : string;
  httpContentTemplate : string
}.

(** One secret of an endpoint with identifier [id]: a key is derived when
    the key is empty and a value is held. *)
Definition backfillSecret (id : ID) (suffix : string) (f : SecretField)
  : SecretField :=
  if bool_decide (Key f = "") && bool_decide (Value f <> None) then
    {| Key := marshalText id +:+ suffix; Value := Value f |}
  else f.

(** Modelled from the spec: [HTTP.BackfillSecretKeys], one derived key per
    secret field, [<endpointID>-<fieldSuffix>]. *)
Definition HTTP_BackfillSecretKeys (h : HTTP) : HTTP :=
  let id := baseID (httpBase h) in
  {| httpBase := httpBase h;
     httpURL := httpURL h;
     httpHeaders := httpHeaders h;
     httpToken := backfillSecret id httpTokenSuffix (httpToken h);
     httpUsername := backfillSecret id httpUsernameSuffix (httpUsername h);
     httpPassword := backfillSecret id httpPasswordSuffix (httpPassword h);
     httpAuthMethod := httpAuthMethod h;
     httpMethod := httpMethod h;
     httpContentTemplate := httpContentTemplate h |}.

(** Modelled from the spec: [HTTP.SecretFields], the secret fields
    currently holding a non-empty key, in declaration order. *)
Definition HTTP_SecretFields (h : HTTP) : list SecretField :=
  filter (fun f => Key f <> "") [httpToken h; httpUsername h; httpPassword h].

(** [HTTP.Valid], declared elsewhere: a parameter. *)
Variable HTTP_Valid : HTTP -> option Error.

Definition HTTP_Type (_ : HTTP) : string := HTTPType.

(** Modelled from the spec: [HTTP.MarshalJSON], with the wire names of the
    expected bodies of the handler tests; empty headers are omitted. *)
Definition HTTP_MarshalJSON (h : HTTP) : gmap string jvalue :=
  let o : gmap string jvalue :=
    <["type" := JStr (HTTP_Type h)]>
    (<["token" := JStr (SecretField_String (httpToken h))]>
    (<["username" := JStr (SecretField_String (httpUsername h))]>
    (<["password" := JStr (SecretField_String (httpPassword h))]>
    (<["authMethod" := JStr (httpAuthMethod h)]>
    (<["method" := JStr (httpMethod h)]>
    (<["contentTemplate" := JStr (httpContentTemplate h)]>
    (<["url" := JStr (httpURL h)]>
    (EndpointBase_fields (httpBase h))))))))) in
  if decide (httpHeaders h = ∅) then o
  else <["headers" := JStrMap (httpHeaders h)]> o.

(** *** The shared capability set *)

(** [influxdb.NotificationEndpoint]: the closed set of variants. *)
Inductive NotificationEndpoint :=
| EpSlack (s : Slack)
| EpHTTP (h : HTTP).

Definition Base (e : NotificationEndpoint) : EndpointBase :=
  match e with
  | EpSlack s => slackBase s
  | EpHTTP h => httpBase h
  end.

(** Assignment through the pointer returned by [Base()]. *)
Definition setBase (e : NotificationEndpoint) (b : EndpointBase)
  : NotificationEndpoint :=
  match e with
  | EpSlack s => EpSlack {| slackBase := b; URL := URL s; Token := Token s |}
  | EpHTTP h =>
    EpHTTP {| httpBase := b;
              httpURL := httpURL h;
              httpHeaders := httpHeaders h;
              httpToken := httpToken h;
              httpUsername := httpUsername h;
              httpPassword := httpPassword h;
              httpAuthMethod := httpAuthMethod h;
              httpMethod := httpMethod h;
              httpContentTemplate := httpContentTemplate h |}
  end.

Definition BackfillSecretKeys (e : NotificationEndpoint)
  : NotificationEndpoint :=
  match e with
  | EpSlack s => EpSlack (Slack_BackfillSecretKeys s)
  | EpHTTP h => EpHTTP (HTTP_BackfillSecretKeys h)
  end.

Definition SecretFields (e : NotificationEndpoint) : list SecretField :=
  match e with
  | EpSlack s => Slack_SecretFields s
  | EpHTTP h => HTTP_SecretFields h
  end.

Definition Valid (e : NotificationEndpoint) : option Error :=
  match e with
  | EpSlack s => Slack_Valid s
  | EpHTTP h => HTTP_Valid h
  end.

Definition Type_ (e : NotificationEndpoint) : string :=
  match e with
  | EpSlack s => Slack_Type s
  | EpHTTP h => HTTP_Type h
  end.

Definition MarshalJSON (e : NotificationEndpoint) : gmap string jvalue :=
  match e with
  | EpSlack s => Slack_MarshalJSON s
  | EpHTTP h => HTTP_MarshalJSON h
  end.

(** Every secret field of the variant, with or without a key, in
    declaration order. *)
Definition allSecrets (e : NotificationEndpoint) : list SecretField :=
  match e with
  | EpSlack s => [Token s]
  | EpHTTP h => [httpToken h; httpUsername h; httpPassword h]
  end.

Definition secretKeys (e : NotificationEndpoint) : list string :=
  Key <$> allSecrets e.

(** ** Codec: decoding *)

Definition errUnmarshal (field : string) : Error :=
  {| Code := EInvalid; Msg := "json: cannot unmarshal field " +:+ field |}.

(** The readers used by the modelled decoder.  A string field: absent means
    the zero value. *)
Definition getString (o : gmap string jvalue) (k : string) : result string :=
  match o !! k with
  | None => Ok ""
  | Some (JStr s) => Ok s
  | Some _ => Err (errUnmarshal k)
  end.

(** A field read through its text codec: absent means the zero value. *)
Definition getText {A} `{!TextCodec A} (o : gmap string jvalue) (k : string)
  : result A :=
  match o !! k with
  | None => Ok zeroValue
  | Some (JStr s) =>
    match unmarshalText s with
    | Some a => Ok a
    | None => Err (errUnmarshal k)
    end
  | Some _ => Err (errUnmarshal k)
  end.

(** A secret field: absent means the zero value, a string is handed to the
    field's unmarshaller. *)
Definition getSecret (o : gmap string jvalue) (k : string)
  : result SecretField :=
  match o !! k with
  | None => Ok {| Key := ""; Value := None |}
  | Some (JStr s) => Ok (SecretField_UnmarshalJSON s)
  | Some _ => Err (errUnmarshal k)
  end.

Definition getStrMap (o : gmap string jvalue) (k : string)
  : result (gmap string string) :=
  match o !! k with
  | None => Ok ∅
  | Some (JStrMap m) => Ok m
  | Some _ => Err (errUnmarshal k)
  end.

Definition getStrList (o : gmap string jvalue) (k : string)
  : result (list string) :=
  match o !! k with
  | None => Ok []
  | Some (JStrList l) => Ok l
  | Some _ => Err (errUnmarshal k)
  end.

(** Modelled from the spec: reading the base fields of a wire object. *)
Definition decodeBase (o : gmap string jvalue) : result EndpointBase :=
  id <-- getText o "id";;
  orgID <-- getText o "orgID";;
  name <-- getString o "name";;
  description <-- getString o "description";;
  status <-- getString o "status";;
  createdAt <-- getText o "createdAt";;
  updatedAt <-- getText o "updatedAt";;
  Ok {| baseID := id; baseOrgID := orgID; baseName := name;
        baseDescription := description; baseStatus := status;
        baseCreatedAt := createdAt; baseUpdatedAt := updatedAt |}.

Definition errUnknownType (t : string) : Error :=
  {| Code := EInvalid; Msg := "invalid notification endpoint type " +:+ t |}.

(** Modelled from the spec: [endpoint.UnmarshalJSON], called by the handlers
    and by [notificationEndpointDecoder] but declared elsewhere.  The
    discriminator is read first and an unrecognised one fails; the other
    fields are read into a zero value of the matched variant, absent fields
    staying zero; a public secret field is read by the unmarshaller of
    [SecretField]. *)
Definition UnmarshalJSON (o : gmap string jvalue) : result NotificationEndpoint :=
  t <-- getString o "type";;
  if decide (t = SlackType) then
    b <-- decodeBase o;;
    url <-- getString o "url";;
    token <-- getSecret o "token";;
    Ok (EpSlack {| slackBase := b; URL := url; Token := token |})
  else if decide (t = HTTPType) then
    b <-- decodeBase o;;
    url <-- getString o "url";;
    headers <-- getStrMap o "headers";;
    token <-- getSecret o "token";;
    username <-- getSecret o "username";;
    password <-- getSecret o "password";;
    authMethod <-- getString o "authMethod";;
    method <-- getString o "method";;
    contentTemplate <-- getString o "contentTemplate";;
    Ok (EpHTTP {| httpBase := b; httpURL := url; httpHeaders := headers;
                  httpToken := token;
                  httpUsername := username;
                  httpPassword := password;
                  httpAuthMethod := authMethod; httpMethod := method;
                  httpContentTemplate := contentTemplate |})
  else Err (errUnknownType t).

(** [func (n *notificationEndpointDecoder) UnmarshalJSON(b []byte) error]:
    the decoded endpoint is stored in the decoder. *)
Definition Decoder_UnmarshalJSON (b : gmap string jvalue)
  : result NotificationEndpoint :=
  newEndpoint <-- UnmarshalJSON b;;
  Ok newEndpoint.

(** ** The HTTP client's encoder *)

(** The [fieldMap] literal of [notificationEndpointEncoder.MarshalJSON]. *)
Definition fieldMap : gmap string string :=
  <["-password" := "password"]>
  (<["-routing-key" := "routingKey"]>
  (<["-token" := "token"]>
  (<["-username" := "username"]> ∅))).

(** Indexing a Go [map[string]string]: the zero value when the key is
    absent. *)
Definition mapIndex (m : gmap string string) (k : string) : string :=
  default "" (m !! k).

(** The body of the loop over [n.ne.SecretFields()]. *)
Definition Encoder_putSecret (ughhh : gmap string jvalue) (sec : SecretField)
  : gmap string jvalue :=
  let v := match Value sec with Some x => x | None => "" end in
  <[mapIndex fieldMap (Key sec) := JStr v]> ughhh.

(** [func (n *notificationEndpointEncoder) MarshalJSON() ([]byte, error)].
    The endpoint is held by reference, so the backfill done on the way is
    visible to the caller: the endpoint after the call is returned along
    with the JSON object. *)
Definition Encoder_MarshalJSON (ne : NotificationEndpoint)
  : NotificationEndpoint * gmap string jvalue :=
  let b := MarshalJSON ne in
  let ughhh := b in
  let ne := BackfillSecretKeys ne in
  (ne, foldl Encoder_putSecret ughhh (SecretFields ne)).

(** ** Update protocol *)

(** [influxdb.NotificationEndpointUpdate]: the change-set, each field
    optional. *)
Record NotificationEndpointUpdate := mkNotificationEndpointUpdate {
  updName : option string;
  updDescription : option string;
  updStatus : option Status
}.

(** [influxdb.EndpointUpdate]: the update mode, the target and the
    mutator [Fn(now, existing)]. *)
Record EndpointUpdate := mkEndpointUpdate {
  UpdateType : string;
  updateID : ID;
  Fn : Time -> NotificationEndpoint -> NotificationEndpoint * option Error
}.

(** *** The HTTP client, [NotificationEndpointService] *)

(** The remote server as seen through [httpc.Client]: a request body and
    the identifier on the path go in, a new server state and either an
    error or the response body come out. *)
Context {Server : Type}.
Variable PutJSON_Do :
  Server -> gmap string jvalue -> string -> Server * result (gmap string jvalue).
Variable PatchJSON_Do :
  Server -> NotificationEndpointUpdate -> string ->
  Server * result (gmap string jvalue).

Definition zeroBase : EndpointBase :=
  {| baseID := zeroValue; baseOrgID := zeroValue; baseName := "";
     baseDescription := ""; baseStatus := "";
     baseCreatedAt := zeroValue; baseUpdatedAt := zeroValue |}.

Definition zeroSecret : SecretField := {| Key := ""; Value := None |}.

(** [&endpoint.HTTP{}]. *)
Definition zeroHTTP : HTTP :=
  {| httpBase := zeroBase; httpURL := ""; httpHeaders := ∅;
     httpToken := zeroSecret; httpUsername := zeroSecret;
     httpPassword := zeroSecret; httpAuthMethod := ""; httpMethod := "";
     httpContentTemplate := "" |}.

(** [func (s *NotificationEndpointService) update]. *)
Definition Client_update (srv : Server) (update : EndpointUpdate)
  : Server * result NotificationEndpoint :=
  let '(endpoint, _) := Fn update zeroValue (EpHTTP zeroHTTP) in
  let path := marshalText (baseID (Base endpoint)) in
  let '(_, body) := Encoder_MarshalJSON endpoint in
  let '(srv, r) := PutJSON_Do srv body path in
  (srv, resp <-- r;; Decoder_UnmarshalJSON resp).

(** [func (s *NotificationEndpointService) patch]. *)
Definition Client_patch (srv : Server) (update : EndpointUpdate)
  : Server * result NotificationEndpoint :=
  let '(endpoint, _) := Fn update zeroValue (EpHTTP zeroHTTP) in
  let base := Base endpoint in
  let body :=
    {| updName :=
         if decide (baseName base <> "") then Some (baseName base) else None;
       updDescription := Some (baseDescription base);
       updStatus :=
         if Status_valid (baseStatus base) then Some (baseStatus base)
         else None |} in
  let '(srv, r) :=
    PatchJSON_Do srv body (marshalText (baseID (Base endpoint))) in
  (srv, resp <-- r;; Decoder_UnmarshalJSON resp).

(** [func (s *NotificationEndpointService) Update]. *)
Definition Client_Update (srv : Server) (update : EndpointUpdate)
  : Server * result NotificationEndpoint :=
  if decide (UpdateType update = "endpoint") then Client_update srv update
  else if decide (UpdateType update = "change_set") then
    Client_patch srv update
  else (srv, Err {| Code := EInvalid; Msg := "invalid update provided" |}).

(** *** The service behind the handlers *)

Definition withName (b : EndpointBase) (n : string) : EndpointBase :=
  {| baseID := baseID b; baseOrgID := baseOrgID b; baseName := n;
     baseDescription := baseDescription b; baseStatus := baseStatus b;
     baseCreatedAt := baseCreatedAt b; baseUpdatedAt := baseUpdatedAt b |}.

Definition withDescription (b : EndpointBase) (d : string) : EndpointBase :=
  {| baseID := baseID b; baseOrgID := baseOrgID b; baseName := baseName b;
     baseDescription := d; baseStatus := baseStatus b;
     baseCreatedAt := baseCreatedAt b; baseUpdatedAt := baseUpdatedAt b |}.

Definition withStatus (b : EndpointBase) (st : Status) : EndpointBase :=
  {| baseID := baseID b; baseOrgID := baseOrgID b; baseName := baseName b;
     baseDescription := baseDescription b; baseStatus := st;
     baseCreatedAt := baseCreatedAt b; baseUpdatedAt := baseUpdatedAt b |}.

Definition withUpdatedAt (b : EndpointBase) (t : Time) : EndpointBase :=
  {| baseID := baseID b; baseOrgID := baseOrgID b; baseName := baseName b;
     baseDescription := baseDescription b; baseStatus := baseStatus b;
     baseCreatedAt := baseCreatedAt b; baseUpdatedAt := t |}.

(** Modelled from the spec: [endpoints.UpdateChangeSet], called by the
    patch handler but declared elsewhere.  The mutator works on the
    currently stored variant and overwrites only the base fields present in
    the change-set, then stamps the update time. *)
Definition UpdateChangeSet (id : ID) (upd : NotificationEndpointUpdate)
  : EndpointUpdate :=
  {| UpdateType := "change_set";
     updateID := id;
     Fn := fun now existing =>
       let b := Base existing in
       let b := match updName upd with Some n => withName b n | None => b end in
       let b := match updDescription upd with
                | Some d => withDescription b d
                | None => b
                end in
       let b := match updStatus upd with Some st => withStatus b st | None => b end in
       let b := withUpdatedAt b now in
       (setBase existing b, None) |}.

Definition errNotFound : Error :=
  {| Code := ENotFound; Msg := "notification endpoint not found" |}.

Definition errInvalidUpdate : Error :=
  {| Code := EInvalid; Msg := "invalid update provided" |}.

(** Modelled from the spec: the update operation of the endpoint service
    over its persistence collaborator (the service is declared elsewhere).
    An unknown mode is an invalid request; the current variant is loaded, a
    missing identifier being [NotFound]; the mutator is applied to it; the
    result is validated, a failure leaving the store as it was; the result
    is persisted under the identifier. *)
Definition Service_Update (store : gmap ID NotificationEndpoint) (now : Time)
    (update : EndpointUpdate)
  : gmap ID NotificationEndpoint * result NotificationEndpoint :=
  if bool_decide (UpdateType update = "endpoint")
     || bool_decide (UpdateType update = "change_set") then
    match store !! updateID update with
    | None => (store, Err errNotFound)
    | Some current =>
      match Fn update now current with
      | (_, Some err) => (store, Err err)
      | (edp, None) =>
        match Valid edp with
        | Some err => (store, Err err)
        | None => (<[updateID update := edp]> store, Ok edp)
        end
      end
    end
  else (store, Err errInvalidUpdate).

(** ** Resource API: the handlers *)

(** What a handler reads from [*http.Request]: the router parameters, the
    query string, the body as a JSON object, and the user of the
    authorizer on the context, if any. *)
Record Request := mkRequest {
  reqParams : gmap string string;
  reqQuery : gmap string (list string);
  reqBody : gmap string jvalue;
  reqAuthorizer : option ID
}.

(** [url.Values.Get]: the first value of the key, or the empty string. *)
Definition Query_Get (q : gmap string (list string)) (k : string) : string :=
  match q !! k with
  | Some (v :: _) => v
  | _ => ""
  end.

(** [httprouter.Params.ByName]. *)
Definition ByName (ps : gmap string string) (k : string) : string :=
  default "" (ps !! k).

Definition errInvalidID : Error :=
  {| Code := EInvalid; Msg := "invalid ID" |}.

(** [influxdb.IDFromString], through the text codec of [ID]. *)
Definition IDFromString (s : string) : result ID :=
  match unmarshalText s with
  | Some i => Ok i
  | None => Err errInvalidID
  end.

(** [pctx.GetAuthorizer] followed by [GetUserID]. *)
Definition GetAuthorizer (r : Request) : result ID :=
  match reqAuthorizer r with
  | Some u => Ok u
  | None => Err {| Code := EInternal; Msg := "authorizer not found on context" |}
  end.

(** The services of [NotificationEndpointBackend] are interfaces; the
    handlers are written against their methods, each a transition of
    the state of the service. *)
Context {Svc LS Label : Type}.

(** [NotificationEndpointService.Create]: the endpoint is passed by
    reference and comes back as the service left it. *)
Variable Service_Create :
  Svc -> ID -> NotificationEndpoint -> Svc * (NotificationEndpoint * option Error).

(** [influxdb.Label] and the three methods of [LabelService] used. *)
Variable Label_ID : Label -> ID.
Variable FindLabelByID : LS -> ID -> result Label.

(** [influxdb.LabelMapping]. *)
Record LabelMapping := mkLabelMapping {
  LabelID : ID;
  ResourceID : ID;
  MappingResourceType : string
}.

Variable CreateLabelMapping : LS -> LabelMapping -> LS * option Error.

(** [influxdb.NotificationEndpointResourceType]. *)
Variable NotificationEndpointResourceType : string.

Record postNotificationEndpointRequest := mkPostRequest {
  postEndpoint : NotificationEndpoint;
  postLabels : list string
}.

Record notificationEndpointLinks := mkLinks {
  Self : string;
  Labels : string;
  Members : string;
  Owners : string
}.

Record notificationEndpointResponse := mkResponse {
  respEndpoint : NotificationEndpoint;
  respLabels : list Label;
  respLinks : notificationEndpointLinks
}.

(** What a handler writes: an error through [HandleHTTPError], or a
    status code with an endpoint response. *)
Inductive httpResponse :=
| RespError (e : Error)
| RespEndpoint (status : nat) (r : notificationEndpointResponse).

Definition StatusCreated : nat := 201.

(** [newNotificationEndpointResponse]. *)
Definition newNotificationEndpointResponse (edp : NotificationEndpoint)
    (labels : list Label) : notificationEndpointResponse :=
  let id := marshalText (baseID (Base edp)) in
  let res :=
    {| respEndpoint := edp;
       respLinks :=
         {| Self := "/api/v2/notificationEndpoints/" +:+ id;
            Labels := "/api/v2/notificationEndpoints/" +:+ id +:+ "/labels";
            Members := "/api/v2/notificationEndpoints/" +:+ id +:+ "/members";
            Owners := "/api/v2/notificationEndpoints/" +:+ id +:+ "/owners" |};
       respLabels := [] |} in
  {| respEndpoint := respEndpoint res;
     respLinks := respLinks res;
     respLabels := foldl (fun acc l => (acc ++ [l])%list) (respLabels res) labels |}.

(** [decodePostNotificationEndpointRequest]. *)
Definition decodePostNotificationEndpointRequest (r : Request)
  : result postNotificationEndpointRequest :=
  let b := reqBody r in
  match UnmarshalJSON b with
  | Err err => Err {| Code := EInvalid; Msg := Msg err |}
  | Ok edp =>
    match getStrList b "labels" with
    | Err err => Err {| Code := EInvalid; Msg := Msg err |}
    | Ok dl => Ok {| postEndpoint := edp; postLabels := dl |}
    end
  end.

(** [mapNewNotificationEndpointLabels]: the loop over [labels], with the
    slice [ls] built so far and the state of the label service. *)
Fixpoint mapLabelsLoop (st : LS) (nre : NotificationEndpoint)
    (labels : list string) (ls : list Label) : LS * list Label :=
  match labels with
  | [] => (st, ls)
  | sid :: labels =>
    match unmarshalText sid with
    | None => mapLabelsLoop st nre labels ls
    | Some lid =>
      match FindLabelByID st lid with
      | Err _ => mapLabelsLoop st nre labels ls
      | Ok label =>
        let mapping :=
          {| LabelID := Label_ID label;
             ResourceID := baseID (Base nre);
             MappingResourceType := NotificationEndpointResourceType |} in
        match CreateLabelMapping st mapping with
        | (st, Some _) => mapLabelsLoop st nre labels ls
        | (st, None) => mapLabelsLoop st nre labels (ls ++ [label])%list
        end
      end
    end
  end.

Definition mapNewNotificationEndpointLabels (st : LS)
    (nre : NotificationEndpoint) (labels : list string) : LS * list Label :=
  mapLabelsLoop st nre labels [].

(** [handlePostNotificationEndpoint]. *)
Definition handlePostNotificationEndpoint (svc : Svc) (st : LS) (r : Request)
  : Svc * LS * httpResponse :=
  match decodePostNotificationEndpointRequest r with
  | Err err => (svc, st, RespError err)
  | Ok edp =>
    match GetAuthorizer r with
    | Err err => (svc, st, RespError err)
    | Ok userID =>
      match Service_Create svc userID (postEndpoint edp) with
      | (svc, (_, Some err)) => (svc, st, RespError err)
      | (svc, (created, None)) =>
        let '(st, labels) :=
          mapNewNotificationEndpointLabels st created (postLabels edp) in
        (svc, st,
         RespEndpoint StatusCreated
           (newNotificationEndpointResponse created labels))
      end
    end
  end.

Definition StatusOK : nat := 200.

(** [NotificationEndpointUpdate.Valid], declared elsewhere: a parameter. *)
Variable NotificationEndpointUpdate_Valid :
  NotificationEndpointUpdate -> option Error.

(** An optional string field of a JSON object read into a [*string]. *)
Definition getOptString (o : gmap string jvalue) (k : string)
  : result (option string) :=
  match o !! k with
  | None => Ok None
  | Some (JStr s) => Ok (Some s)
  | Some _ => Err (errUnmarshal k)
  end.

Record patchNotificationEndpointRequest := mkPatchRequest {
  patchID : ID;
  patchUpdate : NotificationEndpointUpdate
}.

(** [decodePatchNotificationEndpointRequest]. *)
Definition decodePatchNotificationEndpointRequest (r : Request)
  : result patchNotificationEndpointRequest :=
  id <-- IDFromString (ByName (reqParams r) "id");;
  match
    (name <-- getOptString (reqBody r) "name";;
     description <-- getOptString (reqBody r) "description";;
     status <-- getOptString (reqBody r) "status";;
     Ok {| updName := name; updDescription := description;
           updStatus := status |})
  with
  | Err err => Err {| Code := EInvalid; Msg := Msg err |}
  | Ok upd =>
    match NotificationEndpointUpdate_Valid upd with
    | Some err => Err {| Code := EInvalid; Msg := Msg err |}
    | None => Ok {| patchID := id; patchUpdate := upd |}
    end
  end.

(** [handlePatchNotificationEndpoint], over the [Update] method of the
    endpoint service and [FindResourceLabels] of the label service. *)
Definition handlePatchNotificationEndpoint {S : Type}
    (Update : S -> EndpointUpdate -> S * result NotificationEndpoint)
    (FindResourceLabels : LS -> ID -> result (list Label))
    (svc : S) (st : LS) (r : Request) : S * httpResponse :=
  match decodePatchNotificationEndpointRequest r with
  | Err err => (svc, RespError err)
  | Ok req =>
    match Update svc (UpdateChangeSet (patchID req) (patchUpdate req)) with
    | (svc, Err err) => (svc, RespError err)
    | (svc, Ok edp) =>
      match FindResourceLabels st (baseID (Base edp)) with
      | Err err => (svc, RespError err)
      | Ok labels =>
        (svc, RespEndpoint StatusOK (newNotificationEndpointResponse edp labels))
      end
    end
  end.

(** The label attachment of Create as the specification words it: each
    label identifier in turn is skipped when it fails to decode, to
    resolve, or to be mapped, and is attached otherwise. *)
Inductive Attached (rid : ID) : LS -> list string -> LS -> list Label -> Prop :=
| Attached_nil st :
    Attached rid st [] st []
| Attached_skip_decode st sid sids st' ls :
    unmarshalText (A := ID) sid = None ->
    Attached rid st sids st' ls ->
    Attached rid st (sid :: sids) st' ls
| Attached_skip_resolve st sid lid e sids st' ls :
    unmarshalText sid = Some lid ->
    FindLabelByID st lid = Err e ->
    Attached rid st sids st' ls ->
    Attached rid st (sid :: sids) st' ls
| Attached_skip_map st sid lid label st1 e sids st' ls :
    unmarshalText sid = Some lid ->
    FindLabelByID st lid = Ok label ->
    CreateLabelMapping st
      {| LabelID := Label_ID label; ResourceID := rid;
         MappingResourceType := NotificationEndpointResourceType |}
      = (st1, Some e) ->
    Attached rid st1 sids st' ls ->
    Attached rid st (sid :: sids) st' ls
| Attached_attach st sid lid label st1 sids st' ls :
    unmarshalText sid = Some lid ->
    FindLabelByID st lid = Ok label ->
    CreateLabelMapping st
      {| LabelID := Label_ID label; ResourceID := rid;
         MappingResourceType := NotificationEndpointResourceType |}
      = (st1, None) ->
    Attached rid st1 sids st' ls ->
    Attached rid st (sid :: sids) st' (label :: ls).

(** *** Decoding the list filter *)

Record UserResourceMappingFilter := mkURMFilter {
  ResourceType : string;
  UserID : ID
}.

(** [influxdb.NotificationEndpointFilter], with the fields the files at
    hand read and write: [OrgID *ID], [Org *string] and the embedded
    mapping filter. *)
Record NotificationEndpointFilter := mkFilter {
  OrgID : option ID;
  Org : option string;
  filterURM : UserResourceMappingFilter
}.

Context {FindOptions : Type}.
(** [decodeFindOptions], declared elsewhere in the package; on success
    the pointer it returns is not [nil]. *)
Variable decodeFindOptions : Request -> result FindOptions.

(** [decodeNotificationEndpointFilter]. *)
Definition decodeNotificationEndpointFilter (r : Request)
  : outcome (NotificationEndpointFilter * FindOptions) :=
  let f :=
    {| OrgID := None; Org := None;
       filterURM := {| ResourceType := NotificationEndpointResourceType;
                       UserID := zeroValue |} |} in
  match decodeFindOptions r with
  | Err err => Fails err
  | Ok opts =>
    let q := reqQuery r in
    obind
      (let orgIDStr := Query_Get q "orgID" in
       if decide (orgIDStr <> "") then
         match IDFromString orgIDStr with
         | Err _ => Fails {| Code := EInvalid; Msg := "orgID is invalid" |}
         | Ok orgID =>
           Returns {| OrgID := Some orgID; Org := Org f;
                      filterURM := filterURM f |}
         end
       else
         let orgNameStr := Query_Get q "org" in
         if decide (orgNameStr <> "") then
           obind (storeThrough (Org f) orgNameStr) (fun p =>
             Returns {| OrgID := OrgID f; Org := p;
                        filterURM := filterURM f |})
         else Returns f)
      (fun f =>
         let userID := Query_Get q "user" in
         if decide (userID <> "") then
           match IDFromString userID with
           | Err err => Fails err
           | Ok id =>
             Returns
               ({| OrgID := OrgID f; Org := Org f;
                   filterURM :=
                     {| ResourceType := ResourceType (filterURM f);
                        UserID := id |} |}, opts)
           end
         else Returns (f, opts))
  end.

(** *** The read, delete, replace and list handlers *)

(** [decodeGetNotificationEndpointRequest]. *)
Definition decodeGetNotificationEndpointRequest (r : Request) : result ID :=
  let id := ByName (reqParams r) "id" in
  if decide (id = "") then Err {| Code := EInvalid; Msg := "url missing id" |}
  else
    match unmarshalText id with
    | None => Err errInvalidID
    | Some i => Ok i
    end.

(** [handleGetNotificationEndpoint], over [FindByID] of the endpoint service
    and [FindResourceLabels] of the label service, the latter returning its
    labels and its error side by side as the Go method does. *)
Definition handleGetNotificationEndpoint {S : Type}
    (FindByID : S -> ID -> S * result NotificationEndpoint)
    (FindResourceLabels : LS -> ID -> list Label * option Error)
    (svc : S) (st : LS) (r : Request) : S * httpResponse :=
  match decodeGetNotificationEndpointRequest r with
  | Err err => (svc, RespError err)
  | Ok id =>
    match FindByID svc id with
    | (svc, Err err) => (svc, RespError err)
    | (svc, Ok edp) =>
      match FindResourceLabels st (baseID (Base edp)) with
      | (_, Some err) => (svc, RespError err)
      | (labels, None) =>
        (svc, RespEndpoint StatusOK (newNotificationEndpointResponse edp labels))
      end
    end
  end.

(** What the delete handler writes: an error, or [204 No Content]. *)
Inductive deleteResponse :=
| DeleteError (e : Error)
| DeleteNoContent.

(** [handleDeleteNotificationEndpoint], over [Delete] of the endpoint
    service. *)
Definition handleDeleteNotificationEndpoint {S : Type}
    (Delete : S -> ID -> S * option Error)
    (svc : S) (r : Request) : S * deleteResponse :=
  match decodeGetNotificationEndpointRequest r with
  | Err err => (svc, DeleteError err)
  | Ok i =>
    match Delete svc i with
    | (svc, Some err) => (svc, DeleteError err)
    | (svc, None) => (svc, DeleteNoContent)
    end
  end.

Definition withID (b : EndpointBase) (i : ID) : EndpointBase :=
  {| baseID := i; baseOrgID := baseOrgID b; baseName := baseName b;
     baseDescription := baseDescription b; baseStatus := baseStatus b;
     baseCreatedAt := baseCreatedAt b; baseUpdatedAt := baseUpdatedAt b |}.

Definition withOrgID (b : EndpointBase) (i : ID) : EndpointBase :=
  {| baseID := baseID b; baseOrgID := i; baseName := baseName b;
     baseDescription := baseDescription b; baseStatus := baseStatus b;
     baseCreatedAt := baseCreatedAt b; baseUpdatedAt := baseUpdatedAt b |}.

(** [decodePutNotificationEndpointRequest]: the body is decoded, then the
    identifier on the path is written into the decoded endpoint. *)
Definition decodePutNotificationEndpointRequest (r : Request)
  : result NotificationEndpoint :=
  match UnmarshalJSON (reqBody r) with
  | Err err => Err {| Code := EInvalid; Msg := Msg err |}
  | Ok edp =>
    match IDFromString (ByName (reqParams r) "id") with
    | Err err => Err err
    | Ok i => Ok (setBase edp (withID (Base edp) i))
    end
  end.

(** [handlePutNotificationEndpoint], over [endpoints.UpdateEndpoint], the
    [Update] method of the endpoint service and [FindResourceLabels]. *)
Definition handlePutNotificationEndpoint {S : Type}
    (UpdateEndpoint : NotificationEndpoint -> EndpointUpdate)
    (Update : S -> EndpointUpdate -> S * result NotificationEndpoint)
    (FindResourceLabels : LS -> ID -> list Label * option Error)
    (svc : S) (st : LS) (r : Request) : S * httpResponse :=
  match decodePutNotificationEndpointRequest r with
  | Err err => (svc, RespError err)
  | Ok edp =>
    match Update svc (UpdateEndpoint edp) with
    | (svc, Err err) => (svc, RespError err)
    | (svc, Ok edp) =>
      match FindResourceLabels st (baseID (Base edp)) with
      | (_, Some err) => (svc, RespError err)
      | (labels, None) =>
        (svc, RespEndpoint StatusOK (newNotificationEndpointResponse edp labels))
      end
    end
  end.

(** [notificationEndpointsResponse], with [influxdb.PagingLinks] and
    [newPagingLinks] of the package as parameters. *)
Context {PagingLinks : Type}.
Variable newPagingLinks :
  string -> FindOptions -> NotificationEndpointFilter -> nat -> PagingLinks.

Record notificationEndpointsResponse := mkEndpointsResponse {
  respNotificationEndpoints : list notificationEndpointResponse;
  respPagingLinks : PagingLinks
}.

Definition prefixNotificationEndpoints : string := "/api/v2/notificationEndpoints".

(** [newNotificationEndpointsResponse]: one response per endpoint, the
    error of the label lookup being dropped. *)
Definition newNotificationEndpointsResponse
    (FindResourceLabels : LS -> ID -> list Label * option Error)
    (st : LS) (edps : list NotificationEndpoint)
    (f : NotificationEndpointFilter) (opts : FindOptions)
  : notificationEndpointsResponse :=
  {| respNotificationEndpoints :=
       map (fun edp =>
              let '(labels, _) := FindResourceLabels st (baseID (Base edp)) in
              newNotificationEndpointResponse edp labels)
           edps;
     respPagingLinks :=
       newPagingLinks prefixNotificationEndpoints opts f (length edps) |}.

(** What the list handler writes. *)
Inductive listResponse :=
| ListError (e : Error)
| ListEndpoints (status : nat) (r : notificationEndpointsResponse).

(** [handleGetNotificationEndpoints], over [Find] of the endpoint service.
    A panic of the filter decoder ends the handler.  The endpoints and the
    labels that the services return are taken to be non-nil, as the lists
    here have them: the handler dereferences each one, and what it does on
    a nil one is not modelled. *)
Definition handleGetNotificationEndpoints {S : Type}
    (Find : S -> NotificationEndpointFilter -> FindOptions ->
            S * result (list NotificationEndpoint))
    (FindResourceLabels : LS -> ID -> list Label * option Error)
    (svc : S) (st : LS) (r : Request) : outcome (S * listResponse) :=
  match decodeNotificationEndpointFilter r with
  | Panics => Panics
  | Fails err => Returns (svc, ListError err)
  | Returns (filter, opts) =>
    match Find svc filter opts with
    | (svc, Err err) => Returns (svc, ListError err)
    | (svc, Ok edps) =>
      Returns (svc,
               ListEndpoints StatusOK
                 (newNotificationEndpointsResponse FindResourceLabels st edps
                    filter opts))
    end
  end.

(** *** The body of an endpoint response *)

(** The slices [b[:len(b)-1]] and [b[1:]] of a byte string, which panic on
    an empty one. *)
Definition sliceButLast (b : string) : outcome string :=
  if decide (String.length b = 0) then Panics
  else Returns (substring 0 (String.length b - 1) b).

Definition sliceFromOne (b : string) : outcome string :=
  if decide (String.length b = 0) then Panics
  else Returns (substring 1 (String.length b - 1) b).

(** [func (resp notificationEndpointResponse) MarshalJSON], over the two
    results of [json.Marshal]: of the endpoint, and of the struct holding
    labels and links. *)
Definition notificationEndpointResponse_MarshalJSON
    (marshalEndpoint marshalRest : result string) : outcome string :=
  match marshalEndpoint with
  | Err err => Fails err
  | Ok b1 =>
    match marshalRest with
    | Err err => Fails err
    | Ok b2 =>
      obind (sliceButLast b1) (fun x =>
      obind (sliceFromOne b2) (fun y =>
      Returns (x +:+ ", " +:+ y)))
    end
  end.

(** *** The HTTP client: find, create, delete *)

(** [findOptionParams] of the package, and the requests of [httpc.Client]
    the remaining methods send: a [GET] with query parameters answered by
    the objects of the ["notificationEndpoints"] array, a [GET] by
    identifier, a [POST] with a body, a [DELETE]. *)
Variable findOptionParams : list FindOptions -> list (string * string).
Variable GetList_Do :
  Server -> list (string * string) ->
  Server * result (list (gmap string jvalue)).
Variable Get_Do : Server -> string -> Server * result (gmap string jvalue).
Variable PostJSON_Do :
  Server -> gmap string jvalue -> Server * result (gmap string jvalue).
Variable Delete_Do : Server -> string -> Server * option Error.

(** Decoding the elements of the array, the first failure ending it. *)
Fixpoint decodeAll (bs : list (gmap string jvalue))
  : result (list NotificationEndpoint) :=
  match bs with
  | [] => Ok []
  | b :: bs =>
    e <-- Decoder_UnmarshalJSON b;;
    es <-- decodeAll bs;;
    Ok (e :: es)
  end.

(** [func (s *NotificationEndpointService) FindByID]. *)
Definition Client_FindByID (srv : Server) (id : ID)
  : Server * result NotificationEndpoint :=
  let '(srv, r) := Get_Do srv (marshalText id) in
  (srv, resp <-- r;; Decoder_UnmarshalJSON resp).

(** The query parameters of [Find]. *)
Definition Client_Find_params (filter : NotificationEndpointFilter)
    (opt : list FindOptions) : list (string * string) :=
  let params := findOptionParams opt in
  let params :=
    match OrgID filter with
    | Some orgID => (params ++ [("orgID", marshalText orgID)])%list
    | None => params
    end in
  let params :=
    match Org filter with
    | Some org => (params ++ [("org", org)])%list
    | None => params
    end in
  params.

(** [func (s *NotificationEndpointService) Find]. *)
Definition Client_Find (srv : Server) (filter : NotificationEndpointFilter)
    (opt : list FindOptions) : Server * result (list NotificationEndpoint) :=
  let '(srv, r) := GetList_Do srv (Client_Find_params filter opt) in
  (srv, resp <-- r;; decodeAll resp).

(** [func (s *NotificationEndpointService) Create]: the endpoint is held by
    reference, and comes back as the call leaves it. *)
Definition Client_Create (srv : Server) (ne : NotificationEndpoint)
  : Server * (NotificationEndpoint * option Error) :=
  let '(ne, body) := Encoder_MarshalJSON ne in
  let '(srv, r) := PostJSON_Do srv body in
  match resp <-- r;; Decoder_UnmarshalJSON resp with
  | Err err => (srv, (ne, Some err))
  | Ok resp =>
    let base := Base ne in
    let base := withID base (baseID (Base resp)) in
    let base := withOrgID base (baseOrgID (Base resp)) in
    (srv, (setBase ne base, None))
  end.

(** [func (s *NotificationEndpointService) Delete]. *)
Definition Client_Delete (srv : Server) (id : ID) : Server * option Error :=
  Delete_Do srv (marshalText id).

(** ** Statement vocabulary *)

(** An endpoint with the plaintext of every secret dropped. *)
Definition dropValue (f : SecretField) : SecretField :=
  {| Key := Key f; Value := None |}.

Definition withoutSecretValues (e : NotificationEndpoint) : NotificationEndpoint :=
  match e with
  | EpSlack s =>
    EpSlack {| slackBase := slackBase s; URL := URL s;
               Token := dropValue (Token s) |}
  | EpHTTP h =>
    EpHTTP {| httpBase := httpBase h; httpURL := httpURL h;
              httpHeaders := httpHeaders h;
              httpToken := dropValue (httpToken h);
              httpUsername := dropValue (httpUsername h);
              httpPassword := dropValue (httpPassword h);
              httpAuthMethod := httpAuthMethod h;
              httpMethod := httpMethod h;
              httpContentTemplate := httpContentTemplate h |}
  end.

(** The secret [f] appears in the object [o] under the public name [name]
    in its redacted form. *)
Definition wireSecret (o : gmap string jvalue) (name : string) (f : SecretField)
  : Prop :=
  (Key f = "" -> o !! name = Some (JStr ""))
  /\ (Key f <> "" -> o !! name = Some (JStr ("secret: " +:+ Key f))).

(** What backfill does to one secret field [f] of an endpoint with
    identifier [id], [f'] being the field afterwards. *)
Definition derivesKey (id : ID) (suffix : string) (f f' : SecretField) : Prop :=
  (Key f = "" -> (exists v, Value f = Some v /\ v <> "") ->
   f' = {| Key := marshalText id +:+ suffix; Value := Value f |})
  /\ (Key f <> "" \/ Value f = None -> f' = f).

(** The conditions under which [Slack.Valid] reports an error. *)
Definition Slack_invalid (s : Slack) : Prop :=
  baseName (slackBase s) = ""
  \/ (baseStatus (slackBase s) <> "active" /\ baseStatus (slackBase s) <> "inactive")
  \/ URL s = ""
  \/ (exists msg, url_Parse_err (URL s) = Some msg).

(** The base fields of an object are those of [b]. *)
Definition carriesBase (o : gmap string jvalue) (b : EndpointBase) : Prop :=
  o !! "id" = Some (JStr (marshalText (baseID b)))
  /\ o !! "orgID" = Some (JStr (marshalText (baseOrgID b)))
  /\ o !! "name" = Some (JStr (baseName b))
  /\ o !! "description"
     = (if decide (baseDescription b = "") then None
        else Some (JStr (baseDescription b)))
  /\ o !! "status" = Some (JStr (baseStatus b))
  /\ o !! "createdAt" = Some (JStr (marshalText (baseCreatedAt b)))
  /\ o !! "updatedAt" = Some (JStr (marshalText (baseUpdatedAt b))).

(** What decoding the encoding of an endpoint yields: the endpoint with
    each secret replaced by the reading of its redacted form. *)
Definition rereadSecret (f : SecretField) : SecretField :=
  SecretField_UnmarshalJSON (SecretField_String f).

Definition reread (e : NotificationEndpoint) : NotificationEndpoint :=
  match e with
  | EpSlack s =>
    EpSlack {| slackBase := slackBase s; URL := URL s;
               Token := rereadSecret (Token s) |}
  | EpHTTP h =>
    EpHTTP {| httpBase := httpBase h; httpURL := httpURL h;
              httpHeaders := httpHeaders h;
              httpToken := rereadSecret (httpToken h);
              httpUsername := rereadSecret (httpUsername h);
              httpPassword := rereadSecret (httpPassword h);
              httpAuthMethod := httpAuthMethod h;
              httpMethod := httpMethod h;
              httpContentTemplate := httpContentTemplate h |}
  end.

(** The name-only change-set. *)
Definition nameOnly (n : string) : NotificationEndpointUpdate :=
  {| updName := Some n; updDescription := None; updStatus := None |}.

(** * Properties *)

(** ** Backfill *)

Lemma backfillSecret_idem (id : ID) (suffix : string) (f : SecretField) :
  backfillSecret id suffix (backfillSecret id suffix f) = backfillSecret id suffix f.
Proof.
  unfold backfillSecret.
  destruct (bool_decide (Key f = "") && bool_decide (Value f <> None)) eqn:E;
    [|by rewrite E].
  simpl.
  by destruct (bool_decide (marshalText id +:+ suffix = "")
               && bool_decide (Value f <> None)).
Qed.

Lemma backfillSecret_key_set (id : ID) (suffix : string) (f : SecretField) :
  Key f <> "" -> backfillSecret id suffix f = f.
Proof.
  intros Hk. unfold backfillSecret.
  by rewrite (bool_decide_eq_false_2 _ Hk).
Qed.

Lemma backfillSecret_no_value (id : ID) (suffix : string) (f : SecretField) :
  Value f = None -> backfillSecret id suffix f = f.
Proof.
  intros Hv. unfold backfillSecret. rewrite Hv.
  by destruct (bool_decide (Key f = "")).
Qed.

Lemma backfillSecret_derive (id : ID) (suffix : string) (f : SecretField) :
  Key f = "" -> Value f <> None ->
  backfillSecret id suffix f
  = {| Key := marshalText id +:+ suffix; Value := Value f |}.
Proof.
  intros Hk Hv. unfold backfillSecret.
  by rewrite (bool_decide_eq_true_2 _ Hk), (bool_decide_eq_true_2 _ Hv).
Qed.

(** The backfill of [Slack], written inline in the source, is the
    per-field backfill of its token. *)
Lemma Slack_BackfillSecretKeys_token (s : Slack) :
  Slack_BackfillSecretKeys s
  = {| slackBase := slackBase s; URL := URL s;
       Token := backfillSecret (baseID (slackBase s)) slackTokenSuffix (Token s) |}.
Proof.
  unfold Slack_BackfillSecretKeys, backfillSecret.
  by destruct (_ && _); destruct s.
Qed.

Lemma BackfillSecretKeys_idem (e : NotificationEndpoint) :
  BackfillSecretKeys (BackfillSecretKeys e) = BackfillSecretKeys e.
Proof.
  destruct e as [s|h]; simpl; f_equal.
  - rewrite !Slack_BackfillSecretKeys_token; simpl.
    by rewrite backfillSecret_idem.
  - unfold HTTP_BackfillSecretKeys; simpl.
    by rewrite !backfillSecret_idem.
Qed.

Lemma Base_BackfillSecretKeys (e : NotificationEndpoint) :
  Base (BackfillSecretKeys e) = Base e.
Proof.
  destruct e as [s|h]; simpl; [|done].
  by rewrite Slack_BackfillSecretKeys_token.
Qed.

(** C3. [BackfillSecretKeys] is idempotent: for every variant and every
    [n >= 1], calling it [n] times leaves the endpoint, and so its secret
    keys, as one call does; and a call never overwrites a secret field whose
    key is already set. *)
Theorem BackfillSecretKeys_idempotent (e : NotificationEndpoint) (n : nat) :
  1 <= n ->
  Nat.iter n BackfillSecretKeys e = BackfillSecretKeys e
  /\ secretKeys (Nat.iter n BackfillSecretKeys e)
     = secretKeys (BackfillSecretKeys e)
  /\ (forall (i : nat) (f : SecretField),
        allSecrets e !! i = Some f -> Key f <> "" ->
        allSecrets (BackfillSecretKeys e) !! i = Some f).
Proof.
  intros Hn.
  assert (Hiter : Nat.iter n BackfillSecretKeys e = BackfillSecretKeys e).
  { destruct n as [|n]; [lia|]. clear Hn.
    induction n as [|n IH]; [done|].
    change (Nat.iter (S (S n)) BackfillSecretKeys e)
      with (BackfillSecretKeys (Nat.iter (S n) BackfillSecretKeys e)).
    by rewrite IH, BackfillSecretKeys_idem. }
  split; [done|]. split; [by rewrite Hiter|].
  intros i f Hi Hk.
  destruct e as [s|h]; simpl in *.
  - rewrite Slack_BackfillSecretKeys_token; simpl.
    destruct i as [|i]; simplify_eq/=.
    by rewrite backfillSecret_key_set.
  - destruct i as [|[|[|i]]]; simplify_eq/=;
      by rewrite backfillSecret_key_set.
Qed.

Lemma backfillSecret_derivesKey (id : ID) (suffix : string) (f : SecretField) :
  derivesKey id suffix f (backfillSecret id suffix f).
Proof.
  split.
  - intros Hk (v & Hv & _). apply backfillSecret_derive; [done|].
    by rewrite Hv.
  - intros [Hk|Hv];
      [by apply backfillSecret_key_set | by apply backfillSecret_no_value].
Qed.

(** C4. Backfill assigns to a secret field with a non-empty value and an
    empty key the key [<endpointID><suffix>], the identifier in its string
    form: ["-token"] for the token of the slack variant, ["-token"],
    ["-username"] and ["-password"] for the secrets of the HTTP variant.  A
    field whose key is non-empty, or whose value is absent, is left as it
    is, and so is everything else of the endpoint. *)
Theorem BackfillSecretKeys_derives_keys :
  (forall s : Slack,
     let s' := Slack_BackfillSecretKeys s in
     derivesKey (baseID (slackBase s)) "-token" (Token s) (Token s')
     /\ slackBase s' = slackBase s /\ URL s' = URL s)
  /\ (forall h : HTTP,
       let h' := HTTP_BackfillSecretKeys h in
       let id := baseID (httpBase h) in
       derivesKey id "-token" (httpToken h) (httpToken h')
       /\ derivesKey id "-username" (httpUsername h) (httpUsername h')
       /\ derivesKey id "-password" (httpPassword h) (httpPassword h')
       /\ httpBase h' = httpBase h /\ httpURL h' = httpURL h
       /\ httpHeaders h' = httpHeaders h
       /\ httpAuthMethod h' = httpAuthMethod h
       /\ httpMethod h' = httpMethod h
       /\ httpContentTemplate h' = httpContentTemplate h).
Proof.
  split.
  - intros s s'. subst s'. rewrite Slack_BackfillSecretKeys_token; simpl.
    split; [apply backfillSecret_derivesKey|done].
  - intros h h' id. subst h' id. unfold HTTP_BackfillSecretKeys; simpl.
    repeat split; apply backfillSecret_derivesKey.
Qed.

(** ** Validation *)

Lemma EndpointBase_Valid_None (b : EndpointBase) :
  EndpointBase_Valid b = None
  <-> baseName b <> "" /\ Status_valid (baseStatus b) = true.
Proof.
  unfold EndpointBase_Valid.
  destruct (decide (baseName b = "")), (Status_valid (baseStatus b));
    split; try done; by intros [? ?].
Qed.

Lemma EndpointBase_Valid_code (b : EndpointBase) (err : Error) :
  EndpointBase_Valid b = Some err -> Code err = EInvalid.
Proof.
  unfold EndpointBase_Valid.
  destruct (decide (baseName b = "")), (Status_valid (baseStatus b));
    try done; by intros [= <-].
Qed.

Lemma Status_valid_false (st : Status) :
  Status_valid st = false <-> st <> "active" /\ st <> "inactive".
Proof.
  unfold Status_valid, Active, Inactive.
  rewrite orb_false_iff, !bool_decide_eq_false. done.
Qed.

(** C7. For every slack endpoint, [Valid] returns an [EInvalid] error
    exactly when a base field is invalid (empty name, or a status that is
    neither [active] nor [inactive]), the URL is empty, or the URL fails to
    parse; otherwise it returns no error.  [Valid] has a value receiver and
    reads nothing but the endpoint: it is a function of the endpoint value
    alone, with no state to mutate. *)
Theorem Slack_Valid_spec (s : Slack) :
  (Slack_Valid s = None <-> ~ Slack_invalid s)
  /\ ((exists err, Slack_Valid s = Some err) <-> Slack_invalid s)
  /\ (forall err, Slack_Valid s = Some err -> Code err = EInvalid).
Proof.
  assert (Hnone : Slack_Valid s = None <-> ~ Slack_invalid s).
  { unfold Slack_Valid, Slack_invalid.
    destruct (EndpointBase_Valid (slackBase s)) as [e|] eqn:Hb.
    - split; [done|]. intros Hn. exfalso. apply Hn.
      destruct (decide (baseName (slackBase s) = "")) as [|Hname]; [by left|].
      right; left. apply Status_valid_false.
      destruct (Status_valid (baseStatus (slackBase s))) eqn:Hst; [|done].
      assert (EndpointBase_Valid (slackBase s) = None)
        by (by apply EndpointBase_Valid_None).
      congruence.
    - apply EndpointBase_Valid_None in Hb as [Hname Hst].
      assert (~ (baseStatus (slackBase s) <> "active"
                 /\ baseStatus (slackBase s) <> "inactive")).
      { rewrite <- Status_valid_false. by rewrite Hst. }
      destruct (decide (URL s = "")) as [|Hurl];
        [split; [done|]; intros Hn; destruct Hn; auto|].
      destruct (decide (URL s <> "")); [|done].
      destruct (url_Parse_err (URL s)) as [m|].
      + split; [done|]. intros Hn. destruct Hn. do 3 right. by exists m.
      + split; [|done]. intros _ [?|[?|[?|[m ?]]]]; done. }
  split; [done|]. split.
  - split.
    + intros [err Herr]. destruct (decide (Slack_invalid s)) as [|Hn]; [done|].
      apply Hnone in Hn. congruence.
    + intros Hi. destruct (Slack_Valid s) as [err|]; [by eexists|].
      destruct Hnone as [Hn _]. by destruct (Hn eq_refl).
  - intros err. unfold Slack_Valid.
    destruct (EndpointBase_Valid (slackBase s)) as [e|] eqn:Hb.
    + intros [= <-]. by eapply EndpointBase_Valid_code.
    + destruct (decide (URL s = "")); [by intros [= <-]|].
      destruct (decide (URL s <> "")); [|done].
      destruct (url_Parse_err (URL s)); [by intros [= <-]|done].
Qed.

(** ** Codec *)

Ltac in_list := apply (bool_decide_unpack _); vm_compute; exact I.

Lemma decodeBase_carriesBase (o : gmap string jvalue) (b : EndpointBase) :
  carriesBase o b -> decodeBase o = Ok b.
Proof.
  intros (Hid & Horg & Hname & Hdesc & Hst & Hc & Hu).
  unfold decodeBase, getText, getString.
  rewrite Hid, Horg, Hname, Hdesc, Hst, Hc, Hu, !unmarshal_marshal; simpl.
  destruct b as [i o' n d st c u]; simpl in *.
  by destruct (decide (d = "")) as [->|]; simpl.
Qed.

Lemma EndpointBase_fields_carriesBase (b : EndpointBase) :
  carriesBase (EndpointBase_fields b) b.
Proof.
  unfold carriesBase, EndpointBase_fields.
  destruct (decide (baseDescription b = "")); by simplify_map_eq.
Qed.

Lemma carriesBase_insert (o : gmap string jvalue) (b : EndpointBase)
    (k : string) (v : jvalue) :
  k ∉ ["id"; "orgID"; "name"; "description"; "status"; "createdAt"; "updatedAt"] ->
  carriesBase o b -> carriesBase (<[k := v]> o) b.
Proof.
  intros Hk (Hid & Horg & Hname & Hdesc & Hst & Hc & Hu).
  repeat split; (rewrite lookup_insert_ne; [done|]);
    intros ->; apply Hk; in_list.
Qed.

Ltac not_base_key :=
  let H := fresh in
  intros H; repeat (apply elem_of_cons in H as [H|H]; [done|]);
  by apply elem_of_nil in H.

Lemma Slack_MarshalJSON_carriesBase (s : Slack) :
  carriesBase (Slack_MarshalJSON s) (slackBase s).
Proof.
  unfold Slack_MarshalJSON.
  do 3 (apply carriesBase_insert; [not_base_key|]).
  apply EndpointBase_fields_carriesBase.
Qed.

Lemma HTTP_MarshalJSON_carriesBase (h : HTTP) :
  carriesBase (HTTP_MarshalJSON h) (httpBase h).
Proof.
  unfold HTTP_MarshalJSON.
  destruct (decide (httpHeaders h = ∅));
    [|apply carriesBase_insert; [not_base_key|]];
    do 8 (apply carriesBase_insert; [not_base_key|]);
    apply EndpointBase_fields_carriesBase.
Qed.

Lemma EndpointBase_fields_lookup_other (b : EndpointBase) (k : string) :
  k ∉ ["id"; "orgID"; "name"; "description"; "status"; "createdAt"; "updatedAt"] ->
  EndpointBase_fields b !! k = None.
Proof.
  intros Hk. unfold EndpointBase_fields.
  assert (forall k', k' ∈ ["id"; "orgID"; "name"; "description"; "status";
                           "createdAt"; "updatedAt"] -> k' <> k)
    as Hne by (by intros k' Hk' ->).
  destruct (decide (baseDescription b = ""));
    rewrite ?lookup_insert_ne, ?lookup_empty; try done;
    apply Hne; in_list.
Qed.

(** The wire fields of the slack variant. *)
Lemma Slack_MarshalJSON_fields (s : Slack) :
  Slack_MarshalJSON s !! "type" = Some (JStr "slack")
  /\ Slack_MarshalJSON s !! "token" = Some (JStr (SecretField_String (Token s)))
  /\ Slack_MarshalJSON s !! "url" = Some (JStr (URL s)).
Proof. unfold Slack_MarshalJSON. by simplify_map_eq. Qed.

(** The wire fields of the HTTP variant. *)
Lemma HTTP_MarshalJSON_fields (h : HTTP) :
  let o := HTTP_MarshalJSON h in
  o !! "type" = Some (JStr "http")
  /\ o !! "token" = Some (JStr (SecretField_String (httpToken h)))
  /\ o !! "username" = Some (JStr (SecretField_String (httpUsername h)))
  /\ o !! "password" = Some (JStr (SecretField_String (httpPassword h)))
  /\ o !! "authMethod" = Some (JStr (httpAuthMethod h))
  /\ o !! "method" = Some (JStr (httpMethod h))
  /\ o !! "contentTemplate" = Some (JStr (httpContentTemplate h))
  /\ o !! "url" = Some (JStr (httpURL h))
  /\ o !! "headers"
     = (if decide (httpHeaders h = ∅) then None
        else Some (JStrMap (httpHeaders h))).
Proof.
  simpl. unfold HTTP_MarshalJSON.
  destruct (decide (httpHeaders h = ∅)); simplify_map_eq; repeat split; try done.
  rewrite EndpointBase_fields_lookup_other; [done|not_base_key].
Qed.

Lemma UnmarshalJSON_MarshalJSON (e : NotificationEndpoint) :
  UnmarshalJSON (MarshalJSON e) = Ok (reread e).
Proof.
  destruct e as [s|h]; simpl; unfold UnmarshalJSON.
  - destruct (Slack_MarshalJSON_fields s) as (Ht & Htok & Hurl).
    unfold getString, getSecret. rewrite Ht; simpl.
    rewrite (decodeBase_carriesBase _ _ (Slack_MarshalJSON_carriesBase s)); simpl.
    by rewrite Hurl, Htok.
  - destruct (HTTP_MarshalJSON_fields h)
      as (Ht & Htok & Hu & Hp & Ha & Hm & Hc & Hurl & Hh).
    unfold getString, getStrMap, getSecret. rewrite Ht; simpl.
    rewrite (decodeBase_carriesBase _ _ (HTTP_MarshalJSON_carriesBase h)); simpl.
    rewrite Hurl, Hh, Htok, Hu, Hp, Ha, Hm, Hc; simpl.
    by destruct (decide (httpHeaders h = ∅)) as [->|]; simpl.
Qed.

Lemma SecretField_String_wire (o : gmap string jvalue) (name : string)
    (f : SecretField) :
  o !! name = Some (JStr (SecretField_String f)) -> wireSecret o name f.
Proof.
  unfold wireSecret, SecretField_String. intros ->.
  by destruct (decide (Key f = "")).
Qed.

(** C2. The encoded wire object of an endpoint does not depend on the
    plaintext its secret fields hold: it is the encoding of the same
    endpoint with every secret value dropped.  Each secret field appears
    under its public wire name as the empty string when it has no key and
    as ["secret: "] followed by the key otherwise. *)
Theorem MarshalJSON_redacts_secrets (e : NotificationEndpoint) :
  MarshalJSON e = MarshalJSON (withoutSecretValues e)
  /\ match e with
     | EpSlack s => wireSecret (MarshalJSON e) "token" (Token s)
     | EpHTTP h =>
       wireSecret (MarshalJSON e) "token" (httpToken h)
       /\ wireSecret (MarshalJSON e) "username" (httpUsername h)
       /\ wireSecret (MarshalJSON e) "password" (httpPassword h)
     end.
Proof.
  split; [by destruct e|].
  destruct e as [s|h]; simpl.
  - apply SecretField_String_wire, Slack_MarshalJSON_fields.
  - destruct (HTTP_MarshalJSON_fields h) as (_ & Htok & Hu & Hp & _).
    by repeat split; apply SecretField_String_wire.
Qed.

(** The secret keys of a re-read endpoint are the keys the unmarshaller of
    [SecretField] returns on the redacted forms. *)
Lemma secretKeys_reread (e : NotificationEndpoint) :
  secretKeys (reread e) = (fun f => Key (rereadSecret f)) <$> allSecrets e.
Proof. by destruct e. Qed.


(** ** The client's encoder *)

Lemma mapIndex_fieldMap_suffixes :
  mapIndex fieldMap "-password" = "password"
  /\ mapIndex fieldMap "-routing-key" = "routingKey"
  /\ mapIndex fieldMap "-token" = "token"
  /\ mapIndex fieldMap "-username" = "username".
Proof. by vm_compute. Qed.

(** A key that is not literally one of the four suffixes is not in
    [fieldMap]: indexing yields the empty string. *)
Lemma mapIndex_fieldMap_other (k : string) :
  k ∉ ["-password"; "-routing-key"; "-token"; "-username"] ->
  mapIndex fieldMap k = "".
Proof.
  intros Hk. unfold mapIndex, fieldMap.
  assert (forall k', k' ∈ ["-password"; "-routing-key"; "-token"; "-username"] ->
                     k' <> k) as Hne by (by intros k' Hk' ->).
  rewrite !lookup_insert_ne, lookup_empty; try done; apply Hne; in_list.
Qed.

Ltac peel_prefix p H :=
  destruct p as [|? [|? [|? [|? [|? [|? [|? [|? [|? [|? [|? [|? [|? p]]]]]]]]]]]]];
  simplify_eq/=.

(** A key derived by backfill from a non-empty identifier string is not one
    of the four suffixes. *)
Lemma backfilled_key_not_suffix (p suffix : string) :
  p <> "" ->
  suffix ∈ ["-password"; "-routing-key"; "-token"; "-username"] ->
  p +:+ suffix ∉ ["-password"; "-routing-key"; "-token"; "-username"].
Proof.
  intros Hp Hs Hin.
  repeat (apply elem_of_cons in Hs as [->|Hs]);
    [..|by apply elem_of_nil in Hs];
    repeat (apply elem_of_cons in Hin as [Hin|Hin]);
    try (by apply elem_of_nil in Hin);
    peel_prefix p Hin.
Qed.

Lemma append_not_empty (p suffix : string) : suffix <> "" -> p +:+ suffix <> "".
Proof. by destruct p, suffix. Qed.

(** The client's encoder on a slack endpoint that holds a token value and
    no key, its identifier having a non-empty string form: the value is
    written under the empty name and ["token"] keeps its redacted form. *)
Lemma Encoder_MarshalJSON_Slack_token (s : Slack) (v : string) :
  Key (Token s) = "" -> Value (Token s) = Some v ->
  marshalText (baseID (slackBase s)) <> "" ->
  let '(_, o) := Encoder_MarshalJSON (EpSlack s) in
  o !! "token" = Some (JStr "") /\ o !! "" = Some (JStr v).
Proof.
  intros Hk Hv Hid. unfold Encoder_MarshalJSON; simpl.
  rewrite Slack_BackfillSecretKeys_token.
  rewrite backfillSecret_derive by (by rewrite ?Hv).
  unfold Slack_SecretFields; simpl.
  destruct (decide (_ <> "")) as [_|Hn];
    [|destruct Hn; by apply append_not_empty].
  simpl. unfold Encoder_putSecret; simpl. rewrite Hv.
  rewrite mapIndex_fieldMap_other
    by (apply backfilled_key_not_suffix; [done|in_list]).
  rewrite lookup_insert_ne, lookup_insert_eq by done.
  split; [|done].
  destruct (Slack_MarshalJSON_fields s) as (_ & -> & _).
  unfold SecretField_String. by rewrite decide_True.
Qed.

(** ** The client's update *)

(** C6. For every update whose mode is neither ["endpoint"] (full replace)
    nor ["change_set"], the client's [Update] returns the [EInvalid] error
    "invalid update provided"; the mutator is not run and no request is
    sent, so the server and every endpoint it holds are as before. *)
Theorem Client_Update_unknown_mode (srv : Server) (update : EndpointUpdate) :
  UpdateType update <> "endpoint" ->
  UpdateType update <> "change_set" ->
  Client_Update srv update
  = (srv, Err {| Code := EInvalid; Msg := "invalid update provided" |}).
Proof.
  intros H1 H2. unfold Client_Update.
  by rewrite !decide_False.
Qed.

Lemma Service_Update_unknown_mode (store : gmap ID NotificationEndpoint)
    (now : Time) (update : EndpointUpdate) :
  UpdateType update <> "endpoint" ->
  UpdateType update <> "change_set" ->
  Service_Update store now update = (store, Err errInvalidUpdate).
Proof.
  intros H1 H2. unfold Service_Update.
  by rewrite !bool_decide_eq_false_2.
Qed.

(** ** Change-set update *)

Lemma setBase_frame (e : NotificationEndpoint) (b : EndpointBase) :
  Base (setBase e b) = b
  /\ Type_ (setBase e b) = Type_ e
  /\ allSecrets (setBase e b) = allSecrets e
  /\ setBase (setBase e b) (Base e) = e.
Proof. by destruct e as [[]|[]]. Qed.

(** C5. A change-set update that specifies only the name, when it
    succeeds, replaces the stored endpoint [e] by an endpoint that differs
    from [e] in its base fields only (same variant and type discriminator,
    same variant-specific fields such as the URL, same secret keys and
    values); of the base fields only the name, now the requested one, and
    the last-update timestamp, now the time of the update, change.  Every
    other stored endpoint is untouched. *)
Theorem change_set_name_only_frame (store store' : gmap ID NotificationEndpoint)
    (now : Time) (id : ID) (n : string) (e' : NotificationEndpoint) :
  Service_Update store now (UpdateChangeSet id (nameOnly n)) = (store', Ok e') ->
  exists e,
    store !! id = Some e
    /\ store' = <[id := e']> store
    /\ (forall j, j <> id -> store' !! j = store !! j)
    /\ Type_ e' = Type_ e
    /\ setBase e' (Base e) = e
    /\ secretKeys e' = secretKeys e
    /\ allSecrets e' = allSecrets e
    /\ baseName (Base e') = n
    /\ baseUpdatedAt (Base e') = now
    /\ baseID (Base e') = baseID (Base e)
    /\ baseOrgID (Base e') = baseOrgID (Base e)
    /\ baseDescription (Base e') = baseDescription (Base e)
    /\ baseStatus (Base e') = baseStatus (Base e)
    /\ baseCreatedAt (Base e') = baseCreatedAt (Base e).
Proof.
  unfold Service_Update; simpl.
  destruct (store !! id) as [e|] eqn:Hget; [|done].
  set (b := withUpdatedAt (withName (Base e) n) now).
  destruct (Valid (setBase e b)); [done|].
  intros [= <- <-]. exists e.
  destruct (setBase_frame e b) as (Hb & Ht & Hs & _).
  split; [done|]. split; [done|].
  split; [by intros j Hj; rewrite lookup_insert_ne|].
  split; [done|].
  split; [by destruct e as [[]|[]]|].
  split; [by unfold secretKeys; rewrite Hs|].
  split; [done|].
  by rewrite Hb.
Qed.

(** A change-set update whose result fails validation, or whose target is
    not stored, leaves the store as it was. *)
Lemma Service_Update_error (store store' : gmap ID NotificationEndpoint)
    (now : Time) (update : EndpointUpdate) (err : Error) :
  Service_Update store now update = (store', Err err) -> store' = store.
Proof.
  unfold Service_Update.
  destruct (_ || _); [|by intros [= <-]].
  destruct (store !! updateID update); [|by intros [= <-]].
  destruct (Fn update now n) as [edp [e|]]; [by intros [= <-]|].
  by destruct (Valid edp); intros [= <-].
Qed.

(** The patch handler hands the service the change-set mutator built from
    the identifier on the path and the decoded body. *)
Lemma handlePatchNotificationEndpoint_update {S : Type}
    (Update : S -> EndpointUpdate -> S * result NotificationEndpoint)
    (FindResourceLabels : LS -> ID -> result (list Label))
    (svc svc' : S) (st : LS) (r : Request) (status : nat)
    (resp : notificationEndpointResponse) :
  handlePatchNotificationEndpoint Update FindResourceLabels svc st r
  = (svc', RespEndpoint status resp) ->
  exists req,
    decodePatchNotificationEndpointRequest r = Ok req
    /\ Update svc (UpdateChangeSet (patchID req) (patchUpdate req))
       = (svc', Ok (respEndpoint resp))
    /\ status = StatusOK.
Proof.
  unfold handlePatchNotificationEndpoint.
  destruct (decodePatchNotificationEndpointRequest r) as [req|]; [|done].
  destruct (Update svc _) as [svc1 [edp|]] eqn:Hupd; [|done].
  destruct (FindResourceLabels st _) as [labels|]; [|done].
  intros [= <- <- <-]. exists req. by rewrite Hupd.
Qed.

(** A patch body that carries only a name decodes to the name-only
    change-set. *)
Lemma decodePatchNotificationEndpointRequest_name_only (r : Request)
    (id : ID) (n : string) :
  IDFromString (ByName (reqParams r) "id") = Ok id ->
  reqBody r = <["name" := JStr n]> ∅ ->
  NotificationEndpointUpdate_Valid (nameOnly n) = None ->
  decodePatchNotificationEndpointRequest r
  = Ok {| patchID := id; patchUpdate := nameOnly n |}.
Proof.
  intros Hid Hbody Hvalid. unfold decodePatchNotificationEndpointRequest.
  rewrite Hid, Hbody; simpl. unfold getOptString.
  rewrite lookup_insert_eq, !lookup_insert_ne, !lookup_empty by done; simpl.
  unfold nameOnly, Status in *. by rewrite Hvalid.
Qed.

(** ** Label attachment on Create *)

Lemma mapLabelsLoop_Attached (nre : NotificationEndpoint) (st st' : LS)
    (labels : list string) (ls acc : list Label) :
  Attached (baseID (Base nre)) st labels st' ls ->
  mapLabelsLoop st nre labels acc = (st', (acc ++ ls)%list).
Proof.
  intros H. revert acc.
  induction H as [st|st sid sids st' ls Hd _ IH
                 |st sid lid e sids st' ls Hd Hf _ IH
                 |st sid lid label st1 e sids st' ls Hd Hf Hc _ IH
                 |st sid lid label st1 sids st' ls Hd Hf Hc _ IH];
    intros acc; simpl.
  - by rewrite app_nil_r.
  - by rewrite Hd, IH.
  - by rewrite Hd, Hf, IH.
  - by rewrite Hd, Hf, Hc, IH.
  - rewrite Hd, Hf, Hc, IH. by rewrite <- app_assoc.
Qed.

(** The attachment is defined on every list of label identifiers. *)
Lemma Attached_total (rid : ID) (labels : list string) (st : LS) :
  exists st' ls, Attached rid st labels st' ls.
Proof.
  revert st. induction labels as [|sid sids IH]; intros st.
  - exists st, []. constructor.
  - destruct (unmarshalText (A := ID) sid) as [lid|] eqn:Hd.
    + destruct (FindLabelByID st lid) as [label|e] eqn:Hf.
      * destruct (CreateLabelMapping st
                    {| LabelID := Label_ID label; ResourceID := rid;
                       MappingResourceType := NotificationEndpointResourceType |})
          as [st1 [e|]] eqn:Hc.
        -- destruct (IH st1) as (st' & ls & H). exists st', ls.
           by eapply Attached_skip_map.
        -- destruct (IH st1) as (st' & ls & H). exists st', (label :: ls).
           by eapply Attached_attach.
      * destruct (IH st) as (st' & ls & H). exists st', ls.
        by eapply Attached_skip_resolve.
    + destruct (IH st) as (st' & ls & H). exists st', ls.
      by apply Attached_skip_decode.
Qed.

Lemma newNotificationEndpointResponse_labels (edp : NotificationEndpoint)
    (labels : list Label) :
  respEndpoint (newNotificationEndpointResponse edp labels) = edp
  /\ respLabels (newNotificationEndpointResponse edp labels) = labels.
Proof.
  split; [done|]. simpl.
  assert (forall acc : list Label,
            foldl (fun acc l => (acc ++ [l])%list) acc labels
            = (acc ++ labels)%list) as ->; [|done].
  induction labels as [|l labels IH]; intros acc; simpl.
  - by rewrite app_nil_r.
  - by rewrite IH, <- app_assoc.
Qed.

(** C8. Once the request is decoded, the caller is known and the service
    has created the endpoint, the Create handler answers [201 Created]
    whatever happens to the label identifiers: an identifier that fails to
    decode, to resolve to a label, or to be mapped is skipped, and the
    labels of the response are exactly those attached, in request order. *)
Theorem handlePostNotificationEndpoint_labels_best_effort
    (svc svc' : Svc) (st : LS) (r : Request)
    (edp : postNotificationEndpointRequest) (userID : ID)
    (created : NotificationEndpoint) :
  decodePostNotificationEndpointRequest r = Ok edp ->
  GetAuthorizer r = Ok userID ->
  Service_Create svc userID (postEndpoint edp) = (svc', (created, None)) ->
  exists st' ls resp,
    Attached (baseID (Base created)) st (postLabels edp) st' ls
    /\ mapNewNotificationEndpointLabels st created (postLabels edp) = (st', ls)
    /\ handlePostNotificationEndpoint svc st r
       = (svc', st', RespEndpoint StatusCreated resp)
    /\ respEndpoint resp = created
    /\ respLabels resp = ls.
Proof.
  intros Hdec Hauth Hcreate.
  destruct (Attached_total (baseID (Base created)) (postLabels edp) st)
    as (st' & ls & Hatt).
  exists st', ls, (newNotificationEndpointResponse created ls).
  pose proof (mapLabelsLoop_Attached created _ _ _ _ [] Hatt) as Hloop.
  simpl in Hloop.
  split; [done|]. split; [done|].
  split; [|apply newNotificationEndpointResponse_labels].
  unfold handlePostNotificationEndpoint, mapNewNotificationEndpointLabels.
  by rewrite Hdec, Hauth, Hcreate, Hloop.
Qed.

(** The attachment determines the labels and the state of the label
    service. *)
Lemma Attached_functional (rid : ID) (labels : list string) (st st1 st2 : LS)
    (ls1 ls2 : list Label) :
  Attached rid st labels st1 ls1 ->
  Attached rid st labels st2 ls2 ->
  st1 = st2 /\ ls1 = ls2.
Proof.
  intros H1. revert st2 ls2.
  induction H1 as [st|st sid sids st' ls Hd _ IH
                  |st sid lid e sids st' ls Hd Hf _ IH
                  |st sid lid label st1 e sids st' ls Hd Hf Hc _ IH
                  |st sid lid label st1 sids st' ls Hd Hf Hc _ IH];
    intros st2 ls2 H2; inversion H2; simplify_eq; auto; try congruence;
    repeat match goal with
           | Ha : ?x = _, Hb : ?x = _ |- _ => rewrite Ha in Hb; simplify_eq
           end;
    match goal with
    | H : Attached _ _ _ _ _ |- _ => by destruct (IH _ _ H) as [-> ->]
    end.
Qed.

(** ** Decoding the list filter *)

(** A list request that names the organization and gives no [orgID] runs
    into the store through the [nil] [Org] pointer of the fresh filter. *)
Lemma decodeNotificationEndpointFilter_org_panics (r : Request)
    (opts : FindOptions) :
  decodeFindOptions r = Ok opts ->
  Query_Get (reqQuery r) "orgID" = "" ->
  Query_Get (reqQuery r) "org" <> "" ->
  decodeNotificationEndpointFilter r = Panics.
Proof.
  intros Hopts Hid Horg. unfold decodeNotificationEndpointFilter.
  rewrite Hopts, Hid; simpl.
  by rewrite decide_True.
Qed.

(** ** Further properties of the slack variant *)

(** [SecretFields] lists only secrets that have a key: the token when its
    key is non-empty, nothing otherwise.  After [BackfillSecretKeys] it is
    empty exactly when the endpoint has neither a token key nor a token
    value. *)
Theorem Slack_SecretFields_spec (s : Slack) :
  Forall (fun f => Key f <> "") (Slack_SecretFields s)
  /\ (Slack_SecretFields s = [] <-> Key (Token s) = "")
  /\ (Key (Token s) <> "" -> Slack_SecretFields s = [Token s])
  /\ (Slack_SecretFields (Slack_BackfillSecretKeys s) = []
      <-> Key (Token s) = "" /\ Value (Token s) = None).
Proof.
  assert (Hempty : forall s0 : Slack,
             Slack_SecretFields s0 = [] <-> Key (Token s0) = "").
  { intros s0. unfold Slack_SecretFields.
    destruct (decide (Key (Token s0) <> "")) as [Hk|Hk]; simpl.
    - split; [done|]. intros E. by destruct Hk.
    - split; [|done]. intros _.
      by destruct (decide (Key (Token s0) = "")). }
  split; [|split; [apply Hempty|split]].
  - unfold Slack_SecretFields.
    destruct (decide (Key (Token s) <> "")); simpl; by repeat constructor.
  - intros Hk. unfold Slack_SecretFields. by rewrite decide_True.
  - rewrite Hempty, Slack_BackfillSecretKeys_token; simpl.
    destruct (decide (Key (Token s) = "")) as [Hk|Hk].
    + destruct (Value (Token s)) as [v|] eqn:Hv.
      * rewrite backfillSecret_derive by (by rewrite ?Hv). simpl.
        split; [|by intros [_ ?]]. intros E.
        by apply (append_not_empty _ slackTokenSuffix) in E.
      * by rewrite backfillSecret_no_value.
    + rewrite backfillSecret_key_set by done. by split; [|intros [? _]].
Qed.

(** [Valid] does not look at the token: an endpoint validates the same with
    any token, and in particular before and after [BackfillSecretKeys]. *)
Theorem Slack_Valid_ignores_token (s : Slack) (t : SecretField) :
  Slack_Valid {| slackBase := slackBase s; URL := URL s; Token := t |}
  = Slack_Valid s
  /\ Slack_Valid (Slack_BackfillSecretKeys s) = Slack_Valid s.
Proof.
  split; [done|]. by rewrite Slack_BackfillSecretKeys_token.
Qed.

(** ** Further properties of the client's encoder *)

Lemma mapIndex_fieldMap_range (k : string) :
  mapIndex fieldMap k ∈ [""; "password"; "routingKey"; "token"; "username"].
Proof.
  destruct (decide (k ∈ ["-password"; "-routing-key"; "-token"; "-username"]))
    as [Hin|Hout].
  - repeat (apply elem_of_cons in Hin as [->|Hin]);
      [..|by apply elem_of_nil in Hin]; in_list.
  - rewrite mapIndex_fieldMap_other by done. in_list.
Qed.

Lemma foldl_Encoder_putSecret_frame (secs : list SecretField)
    (o : gmap string jvalue) (k : string) :
  k ∉ [""; "password"; "routingKey"; "token"; "username"] ->
  foldl Encoder_putSecret o secs !! k = o !! k.
Proof.
  intros Hk. revert o. induction secs as [|sec secs IH]; intros o; [done|].
  simpl. rewrite IH. unfold Encoder_putSecret.
  apply lookup_insert_ne. intros E. apply Hk. rewrite <- E.
  apply mapIndex_fieldMap_range.
Qed.

(** The client's encoder backfills the endpoint it is given, and changes
    the marshalled object at most under the four public secret names and
    the empty name: every other field goes out as [MarshalJSON] wrote it. *)
Theorem Encoder_MarshalJSON_frame (ne : NotificationEndpoint) (k : string) :
  k ∉ [""; "password"; "routingKey"; "token"; "username"] ->
  fst (Encoder_MarshalJSON ne) = BackfillSecretKeys ne
  /\ snd (Encoder_MarshalJSON ne) !! k = MarshalJSON ne !! k.
Proof.
  intros Hk. split; [done|].
  unfold Encoder_MarshalJSON; simpl.
  by apply foldl_Encoder_putSecret_frame.
Qed.

Lemma SecretFields_BackfillSecretKeys_nil (ne : NotificationEndpoint) :
  Forall (fun f => Key f = "" /\ Value f = None) (allSecrets ne) ->
  BackfillSecretKeys ne = ne /\ SecretFields ne = [].
Proof.
  destruct ne as [s|h]; simpl; intros H.
  - apply Forall_cons in H as [[Hk Hv] _].
    rewrite Slack_BackfillSecretKeys_token, backfillSecret_no_value by done.
    split; [by destruct s|].
    unfold Slack_SecretFields. by rewrite decide_False by (by intros ?).
  - apply Forall_cons in H as [[Hk1 Hv1] H].
    apply Forall_cons in H as [[Hk2 Hv2] H].
    apply Forall_cons in H as [[Hk3 Hv3] _].
    unfold HTTP_BackfillSecretKeys, HTTP_SecretFields.
    rewrite !backfillSecret_no_value by done.
    split; [by destruct h|].
    rewrite !filter_cons, !decide_False by (by intros ?). done.
Qed.

(** An endpoint none of whose secrets has a key or a value goes through
    the client's encoder untouched: the endpoint is unchanged and the
    object is that of [MarshalJSON]. *)
Theorem Encoder_MarshalJSON_no_secret (ne : NotificationEndpoint) :
  Forall (fun f => Key f = "" /\ Value f = None) (allSecrets ne) ->
  Encoder_MarshalJSON ne = (ne, MarshalJSON ne).
Proof.
  intros H. apply SecretFields_BackfillSecretKeys_nil in H as [Hb Hs].
  unfold Encoder_MarshalJSON. by rewrite Hb, Hs.
Qed.

(** On a slack endpoint whose identifier has the empty string form (one
    not created yet), holding a token value and no key, the client's
    encoder derives the key ["-token"], finds it in its table and writes
    the plaintext under ["token"]; the other fields are those of
    [MarshalJSON]. *)
Theorem Encoder_MarshalJSON_unassigned_id (s : Slack) (v : string) :
  Key (Token s) = "" -> Value (Token s) = Some v ->
  marshalText (baseID (slackBase s)) = "" ->
  Encoder_MarshalJSON (EpSlack s)
  = (EpSlack {| slackBase := slackBase s; URL := URL s;
                Token := {| Key := "-token"; Value := Some v |} |},
     <["token" := JStr v]> (Slack_MarshalJSON s)).
Proof.
  intros Hk Hv Hid. unfold Encoder_MarshalJSON; simpl.
  rewrite Slack_BackfillSecretKeys_token.
  rewrite backfillSecret_derive by (by rewrite ?Hv).
  rewrite Hid, Hv. simpl.
  unfold Slack_SecretFields; simpl. unfold Encoder_putSecret; simpl.
  change ("" +:+ slackTokenSuffix) with "-token".
  by destruct mapIndex_fieldMap_suffixes as (_ & _ & -> & _).
Qed.

(** ** Further properties of the label attachment *)

Lemma mapLabelsLoop_length (nre : NotificationEndpoint) (labels : list string)
    (st : LS) (acc : list Label) :
  length (mapLabelsLoop st nre labels acc).2 <= length acc + length labels.
Proof.
  revert st acc. induction labels as [|sid sids IH]; intros st acc; simpl.
  - lia.
  - destruct (unmarshalText (A := ID) sid) as [lid|]; [|specialize (IH st acc); lia].
    destruct (FindLabelByID st lid) as [label|e];
      [|specialize (IH st acc); lia].
    destruct (CreateLabelMapping st _) as [st1 [e|]].
    + specialize (IH st1 acc). lia.
    + specialize (IH st1 (acc ++ [label])%list).
      rewrite length_app in IH. simpl in IH. lia.
Qed.

Lemma mapLabelsLoop_resolved (nre : NotificationEndpoint) (labels : list string)
    (st : LS) (acc : list Label) (l : Label) :
  l ∈ (mapLabelsLoop st nre labels acc).2 ->
  l ∈ acc
  \/ exists sid lid st0,
       sid ∈ labels /\ unmarshalText sid = Some lid
       /\ FindLabelByID st0 lid = Ok l.
Proof.
  revert st acc. induction labels as [|sid sids IH]; intros st acc; simpl.
  - by left.
  - assert (Hrest : forall st1 acc1,
               l ∈ (mapLabelsLoop st1 nre sids acc1).2 ->
               l ∈ acc1
               \/ exists sid0 lid st0,
                    sid0 ∈ sid :: sids /\ unmarshalText sid0 = Some lid
                    /\ FindLabelByID st0 lid = Ok l).
    { intros st1 acc1 H. destruct (IH _ _ H) as [?|(s0 & lid & st0 & ? & ? & ?)];
        [by left|right]. exists s0, lid, st0. split; [by right|done]. }
    destruct (unmarshalText (A := ID) sid) as [lid|] eqn:Hd; [|apply Hrest].
    destruct (FindLabelByID st lid) as [label|e] eqn:Hf; [|apply Hrest].
    destruct (CreateLabelMapping st _) as [st1 [e|]]; [apply Hrest|].
    intros H. destruct (Hrest _ _ H) as [Hin|?]; [|by right].
    apply elem_of_app in Hin as [?|Hin]; [by left|].
    apply list_elem_of_singleton in Hin as ->.
    right. exists sid, lid, st. split; [by left|done].
Qed.

Lemma mapLabelsLoop_no_decode (nre : NotificationEndpoint)
    (labels : list string) (st : LS) (acc : list Label) :
  Forall (fun sid => unmarshalText (A := ID) sid = None) labels ->
  mapLabelsLoop st nre labels acc = (st, acc).
Proof.
  induction 1 as [|sid sids Hd _ IH]; simpl; [done|]. by rewrite Hd.
Qed.

(** [mapNewNotificationEndpointLabels] returns at most one label per
    identifier, each of them a label that [FindLabelByID] resolved from one
    of the identifiers; when no identifier decodes (in particular when
    there is none) it returns no label and leaves the label service as it
    was. *)
Theorem mapNewNotificationEndpointLabels_bounds (st : LS)
    (nre : NotificationEndpoint) (labels : list string) :
  let '(st', ls) := mapNewNotificationEndpointLabels st nre labels in
  length ls <= length labels
  /\ (forall l, l ∈ ls ->
        exists sid lid st0,
          sid ∈ labels /\ unmarshalText sid = Some lid
          /\ FindLabelByID st0 lid = Ok l)
  /\ (Forall (fun sid => unmarshalText (A := ID) sid = None) labels ->
      st' = st /\ ls = []).
Proof.
  unfold mapNewNotificationEndpointLabels.
  pose proof (mapLabelsLoop_length nre labels st []) as Hlen.
  pose proof (fun l => mapLabelsLoop_resolved nre labels st [] l) as Hres.
  pose proof (mapLabelsLoop_no_decode nre labels st []) as Hnone.
  destruct (mapLabelsLoop st nre labels []) as [st' ls]; simpl in *.
  split; [done|]. split.
  - intros l Hl. destruct (Hres l Hl) as [Hin|?]; [|done].
    by apply elem_of_nil in Hin.
  - intros H. specialize (Hnone H). by injection Hnone as -> ->.
Qed.

(** ** Further properties of the list filter *)

(** The filter decoder panics exactly on the requests whose find options
    decode and that name the organization without giving an [orgID]. *)
Theorem decodeNotificationEndpointFilter_panics_iff (r : Request) :
  decodeNotificationEndpointFilter r = Panics
  <-> exists opts,
        decodeFindOptions r = Ok opts
        /\ Query_Get (reqQuery r) "orgID" = ""
        /\ Query_Get (reqQuery r) "org" <> "".
Proof.
  unfold decodeNotificationEndpointFilter.
  destruct (decodeFindOptions r) as [opts|e].
  - destruct (decide (Query_Get (reqQuery r) "orgID" <> "")) as [Hid|Hid].
    + split; [|by intros (? & _ & ? & _)].
      destruct (IDFromString _); simpl; [|done].
      destruct (decide (Query_Get (reqQuery r) "user" <> "")); [|done].
      by destruct (IDFromString _).
    + assert (Query_Get (reqQuery r) "orgID" = "") as Hid'
        by (by destruct (decide (Query_Get (reqQuery r) "orgID" = ""))).
      destruct (decide (Query_Get (reqQuery r) "org" <> "")) as [Horg|Horg];
        simpl.
      * split; [|done]. intros _. by exists opts.
      * split; [|by intros (? & _ & _ & ?)].
        destruct (decide (Query_Get (reqQuery r) "user" <> "")); [|done].
        by destruct (IDFromString _).
  - split; [done|]. by intros (? & ? & _).
Qed.

(** A filter the decoder returns never names the organization: [Org] is
    [nil], the resource type is that of notification endpoints, the find
    options are those decoded, [OrgID] is the decoded [orgID] parameter if
    there is one, and the [org] parameter is then the only one that may be
    present without effect. *)
Theorem decodeNotificationEndpointFilter_returns (r : Request)
    (f : NotificationEndpointFilter) (opts : FindOptions) :
  decodeNotificationEndpointFilter r = Returns (f, opts) ->
  decodeFindOptions r = Ok opts
  /\ Org f = None
  /\ ResourceType (filterURM f) = NotificationEndpointResourceType
  /\ (if decide (Query_Get (reqQuery r) "orgID" = "")
      then OrgID f = None /\ Query_Get (reqQuery r) "org" = ""
      else exists i, unmarshalText (Query_Get (reqQuery r) "orgID") = Some i
                     /\ OrgID f = Some i)
  /\ (if decide (Query_Get (reqQuery r) "user" = "")
      then UserID (filterURM f) = zeroValue
      else unmarshalText (Query_Get (reqQuery r) "user")
           = Some (UserID (filterURM f))).
Proof.
  unfold decodeNotificationEndpointFilter.
  destruct (decodeFindOptions r) as [opts'|e]; [|done].
  assert (Huser :
    forall f0 : NotificationEndpointFilter,
      (if decide (Query_Get (reqQuery r) "user" <> "")
       then match IDFromString (Query_Get (reqQuery r) "user") with
            | Ok id =>
              Returns ({| OrgID := OrgID f0; Org := Org f0;
                          filterURM :=
                            {| ResourceType := ResourceType (filterURM f0);
                               UserID := id |} |}, opts')
            | Err err => Fails err
            end
       else Returns (f0, opts')) = Returns (f, opts) ->
      opts' = opts /\ OrgID f = OrgID f0 /\ Org f = Org f0
      /\ ResourceType (filterURM f) = ResourceType (filterURM f0)
      /\ (if decide (Query_Get (reqQuery r) "user" = "")
          then UserID (filterURM f) = UserID (filterURM f0)
          else unmarshalText (Query_Get (reqQuery r) "user")
               = Some (UserID (filterURM f)))).
  { intros f0. unfold IDFromString.
    destruct (decide (Query_Get (reqQuery r) "user" <> "")) as [Hu|Hu].
    - rewrite decide_False by done.
      destruct (unmarshalText (Query_Get (reqQuery r) "user")) as [u|];
        [|done].
      by intros [= <- <-].
    - assert (Query_Get (reqQuery r) "user" = "") as Hu'
        by (by destruct (decide (Query_Get (reqQuery r) "user" = ""))).
      rewrite decide_True by done. by intros [= <- <-]. }
  destruct (decide (Query_Get (reqQuery r) "orgID" <> "")) as [Hid|Hid].
  - rewrite (decide_False (P := Query_Get (reqQuery r) "orgID" = "")) by done.
    destruct (IDFromString (Query_Get (reqQuery r) "orgID")) as [i|] eqn:Hd;
      [|done]. cbn [obind].
    intros H. apply Huser in H as (-> & Ho & Horg & Hrt & Hu); simpl in *.
    do 3 (split; [done|]). split; [|done]. exists i. split; [|done].
    revert Hd. unfold IDFromString.
    by destruct (unmarshalText (Query_Get (reqQuery r) "orgID"));
      intros [= ->].
  - assert (Query_Get (reqQuery r) "orgID" = "") as Hid'
      by (by destruct (decide (Query_Get (reqQuery r) "orgID" = ""))).
    rewrite (decide_True (P := Query_Get (reqQuery r) "orgID" = "")) by done.
    destruct (decide (Query_Get (reqQuery r) "org" <> "")) as [Horg|Horg];
      [done|]. cbn [obind].
    assert (Query_Get (reqQuery r) "org" = "") as Horg'
      by (by destruct (decide (Query_Get (reqQuery r) "org" = ""))).
    intros H. apply Huser in H as (-> & Ho & Horg2 & Hrt & Hu); simpl in *.
    done.
Qed.

(** An [orgID] parameter written by the text codec and non-empty is read
    back into [OrgID], whatever the [org] parameter holds: [orgID] takes
    precedence and [org] is then ignored. *)
Theorem decodeNotificationEndpointFilter_orgID_roundtrip (r : Request)
    (opts : FindOptions) (i : ID) :
  decodeFindOptions r = Ok opts ->
  Query_Get (reqQuery r) "orgID" = marshalText i ->
  marshalText i <> "" ->
  Query_Get (reqQuery r) "user" = "" ->
  decodeNotificationEndpointFilter r
  = Returns ({| OrgID := Some i; Org := None;
                filterURM :=
                  {| ResourceType := NotificationEndpointResourceType;
                     UserID := zeroValue |} |}, opts).
Proof.
  intros Hopts Hid Hne Hu. unfold decodeNotificationEndpointFilter, IDFromString.
  rewrite Hopts, Hid, Hu, unmarshal_marshal. cbv zeta.
  by rewrite decide_True by done.
Qed.

(** Errors of the filter decoder, in the order they are found: a failure of
    the find options is returned as it is, whatever the query holds; an
    [orgID] that does not decode is reported as [EInvalid] "orgID is
    invalid", whatever the [user] parameter holds. *)
Theorem decodeNotificationEndpointFilter_errors (r : Request) :
  (forall e, decodeFindOptions r = Err e ->
             decodeNotificationEndpointFilter r = Fails e)
  /\ (forall opts,
        decodeFindOptions r = Ok opts ->
        Query_Get (reqQuery r) "orgID" <> "" ->
        unmarshalText (A := ID) (Query_Get (reqQuery r) "orgID") = None ->
        decodeNotificationEndpointFilter r
        = Fails {| Code := EInvalid; Msg := "orgID is invalid" |})
  /\ (forall e, decodeNotificationEndpointFilter r = Fails e ->
        decodeFindOptions r = Err e
        \/ (unmarshalText (A := ID) (Query_Get (reqQuery r) "orgID") = None
            /\ e = {| Code := EInvalid; Msg := "orgID is invalid" |})
        \/ (unmarshalText (A := ID) (Query_Get (reqQuery r) "user") = None
            /\ e = errInvalidID)).
Proof.
  unfold decodeNotificationEndpointFilter, IDFromString.
  split; [|split].
  - by intros e ->.
  - intros opts -> Hid Hd. cbv zeta. by rewrite decide_True, Hd by done.
  - intros e. destruct (decodeFindOptions r) as [opts|e0];
      [|by intros [= <-]; left].
    destruct (decide (Query_Get (reqQuery r) "orgID" <> "")).
    + destruct (unmarshalText (Query_Get (reqQuery r) "orgID")) as [i|];
        simpl; [|by intros [= <-]; right; left].
      destruct (decide (Query_Get (reqQuery r) "user" <> "")); [|done].
      destruct (unmarshalText (Query_Get (reqQuery r) "user")); [done|].
      intros [= <-]. by right; right.
    + destruct (decide (Query_Get (reqQuery r) "org" <> "")); [done|]. simpl.
      destruct (decide (Query_Get (reqQuery r) "user" <> "")); [|done].
      destruct (unmarshalText (Query_Get (reqQuery r) "user")); [done|].
      intros [= <-]. by right; right.
Qed.

(** ** The read, delete, replace and list handlers *)

(** The identifier of a read or delete request: a missing [id] parameter
    is [EInvalid] "url missing id"; an identifier written by the text codec
    and non-empty is read back; and whenever an identifier is returned the
    parameter is non-empty and decodes to it. *)
Theorem decodeGetNotificationEndpointRequest_spec (r : Request) :
  (ByName (reqParams r) "id" = "" ->
   decodeGetNotificationEndpointRequest r
   = Err {| Code := EInvalid; Msg := "url missing id" |})
  /\ (forall i : ID,
        ByName (reqParams r) "id" = marshalText i -> marshalText i <> "" ->
        decodeGetNotificationEndpointRequest r = Ok i)
  /\ (forall i : ID,
        decodeGetNotificationEndpointRequest r = Ok i ->
        ByName (reqParams r) "id" <> ""
        /\ unmarshalText (ByName (reqParams r) "id") = Some i).
Proof.
  unfold decodeGetNotificationEndpointRequest. cbv zeta.
  split; [|split].
  - intros ->. by rewrite decide_True.
  - intros i -> Hne. by rewrite decide_False, unmarshal_marshal.
  - intros i. destruct (decide (ByName (reqParams r) "id" = "")); [done|].
    by destruct (unmarshalText (ByName (reqParams r) "id")); intros [= ->].
Qed.

(** The delete handler answers [204 No Content] exactly when the
    identifier decodes and the service deletes without error; the service
    is entered at most once, and not at all when the identifier is missing
    or does not decode. *)
Theorem handleDeleteNotificationEndpoint_spec {S : Type}
    (Delete : S -> ID -> S * option Error) (svc svc' : S) (r : Request)
    (resp : deleteResponse) :
  handleDeleteNotificationEndpoint Delete svc r = (svc', resp) ->
  (resp = DeleteNoContent
   <-> exists i, decodeGetNotificationEndpointRequest r = Ok i
                 /\ Delete svc i = (svc', None))
  /\ (forall e, decodeGetNotificationEndpointRequest r = Err e ->
                svc' = svc /\ resp = DeleteError e)
  /\ (forall i, decodeGetNotificationEndpointRequest r = Ok i ->
                svc' = (Delete svc i).1).
Proof.
  unfold handleDeleteNotificationEndpoint.
  destruct (decodeGetNotificationEndpointRequest r) as [i|e].
  - destruct (Delete svc i) as [svc1 [e|]] eqn:Hdel; intros [= <- <-];
      (split; [|split; [done|by intros i' [= <-]; rewrite Hdel]]).
    + split; [done|]. intros (i' & [= <-] & H).
      rewrite Hdel in H. by injection H.
    + split; [|done]. intros _. by exists i.
  - intros [= <- <-]. split; [|split; [|done]].
    + split; [done|]. by intros (i & ? & _).
    + by intros e' [= <-].
Qed.

(** The read handler answers [200] exactly when the identifier decodes,
    the service finds the endpoint and the label lookup succeeds; the body
    then holds that endpoint and those labels.  A failing label lookup
    fails the request, and a request whose identifier does not decode
    leaves the service untouched. *)
Theorem handleGetNotificationEndpoint_spec {S : Type}
    (FindByID : S -> ID -> S * result NotificationEndpoint)
    (FindResourceLabels : LS -> ID -> list Label * option Error)
    (svc svc' : S) (st : LS) (r : Request) (resp : httpResponse) :
  handleGetNotificationEndpoint FindByID FindResourceLabels svc st r
  = (svc', resp) ->
  (forall status body, resp = RespEndpoint status body ->
     status = StatusOK
     /\ exists i labels,
          decodeGetNotificationEndpointRequest r = Ok i
          /\ FindByID svc i = (svc', Ok (respEndpoint body))
          /\ FindResourceLabels st (baseID (Base (respEndpoint body)))
             = (labels, None)
          /\ respLabels body = labels)
  /\ (forall e, decodeGetNotificationEndpointRequest r = Err e ->
                svc' = svc /\ resp = RespError e)
  /\ (forall i edp labels e,
        decodeGetNotificationEndpointRequest r = Ok i ->
        FindByID svc i = (svc', Ok edp) ->
        FindResourceLabels st (baseID (Base edp)) = (labels, Some e) ->
        resp = RespError e).
Proof.
  unfold handleGetNotificationEndpoint.
  destruct (decodeGetNotificationEndpointRequest r) as [i|e].
  - destruct (FindByID svc i) as [svc1 [edp|e]] eqn:Hfind.
    + destruct (FindResourceLabels st (baseID (Base edp)))
        as [labels [e|]] eqn:Hl; intros [= <- <-].
      * split; [done|]. split; [done|].
        intros i' edp' labels' e' Hi Hf H. simplify_eq.
        rewrite Hfind in Hf. simplify_eq. rewrite Hl in H. by simplify_eq.
      * split; [|split; [done|]].
        -- intros status body [= <- <-]. split; [done|].
           destruct (newNotificationEndpointResponse_labels edp labels)
             as [He Hls].
           exists i, labels. rewrite He, Hfind. by rewrite Hl.
        -- intros i' edp' labels' e' Hi Hf H. simplify_eq.
           rewrite Hfind in Hf. simplify_eq. rewrite Hl in H. by simplify_eq.
    + intros [= <- <-]. split; [done|]. split; [done|].
      intros i' edp' labels' e' Hi Hf H. simplify_eq.
      rewrite Hfind in Hf. by simplify_eq.
  - intros [= <- <-]. split; [done|]. split; [by intros e' [= <-]|done].
Qed.

(** The replace request takes its identifier from the path: when the body
    decodes and the path identifier parses, the decoded endpoint is
    returned with that identifier, whatever identifier the body carried,
    and is otherwise as decoded.  A body that does not decode is
    [EInvalid], whatever the path holds. *)
Theorem decodePutNotificationEndpointRequest_spec (r : Request) :
  (forall edp i,
     UnmarshalJSON (reqBody r) = Ok edp ->
     IDFromString (ByName (reqParams r) "id") = Ok i ->
     exists edp',
       decodePutNotificationEndpointRequest r = Ok edp'
       /\ baseID (Base edp') = i
       /\ Base edp' = withID (Base edp) i
       /\ setBase edp' (Base edp) = edp
       /\ Type_ edp' = Type_ edp
       /\ allSecrets edp' = allSecrets edp)
  /\ (forall e,
        UnmarshalJSON (reqBody r) = Err e ->
        decodePutNotificationEndpointRequest r
        = Err {| Code := EInvalid; Msg := Msg e |}).
Proof.
  unfold decodePutNotificationEndpointRequest. split.
  - intros edp i -> ->. eexists. split; [done|].
    destruct (setBase_frame edp (withID (Base edp) i)) as (Hb & Ht & Hs & Hf).
    by rewrite Hb.
  - by intros e ->.
Qed.

(** The list response holds one entry per endpoint found, in the same
    order, each with the endpoint and whatever labels the lookup returned;
    an error of the lookup is dropped, not reported. *)
Theorem newNotificationEndpointsResponse_entries
    (FindResourceLabels : LS -> ID -> list Label * option Error)
    (st : LS) (edps : list NotificationEndpoint)
    (f : NotificationEndpointFilter) (opts : FindOptions) :
  let resp := newNotificationEndpointsResponse FindResourceLabels st edps f opts in
  length (respNotificationEndpoints resp) = length edps
  /\ (forall (i : nat) (edp : NotificationEndpoint),
        edps !! i = Some edp ->
        exists entry,
          respNotificationEndpoints resp !! i = Some entry
          /\ respEndpoint entry = edp
          /\ respLabels entry
             = (FindResourceLabels st (baseID (Base edp))).1)
  /\ respPagingLinks resp
     = newPagingLinks "/api/v2/notificationEndpoints" opts f (length edps).
Proof.
  simpl. split; [by rewrite length_map|]. split; [|done].
  intros i edp Hi. rewrite list_lookup_fmap, Hi. simpl.
  destruct (FindResourceLabels st (baseID (Base edp))) as [labels e].
  eexists. split; [done|]. apply newNotificationEndpointResponse_labels.
Qed.

(** A list request whose find options decode and that names the
    organization without an [orgID] makes the list handler panic: the panic
    of the filter decoder is not recovered.  When the filter fails to decode
    the service is not entered; when [Find] fails its error is the answer;
    when [Find] returns endpoints the answer is [200] with one entry per
    endpoint, in order. *)
Theorem handleGetNotificationEndpoints_spec {S : Type}
    (Find : S -> NotificationEndpointFilter -> FindOptions ->
            S * result (list NotificationEndpoint))
    (FindResourceLabels : LS -> ID -> list Label * option Error)
    (svc : S) (st : LS) (r : Request) :
  (forall opts,
     decodeFindOptions r = Ok opts ->
     Query_Get (reqQuery r) "orgID" = "" ->
     Query_Get (reqQuery r) "org" <> "" ->
     handleGetNotificationEndpoints Find FindResourceLabels svc st r = Panics)
  /\ (forall e,
        decodeNotificationEndpointFilter r = Fails e ->
        handleGetNotificationEndpoints Find FindResourceLabels svc st r
        = Returns (svc, ListError e))
  /\ (forall filter opts svc' e,
        decodeNotificationEndpointFilter r = Returns (filter, opts) ->
        Find svc filter opts = (svc', Err e) ->
        handleGetNotificationEndpoints Find FindResourceLabels svc st r
        = Returns (svc', ListError e))
  /\ (forall filter opts svc' edps,
        decodeNotificationEndpointFilter r = Returns (filter, opts) ->
        Find svc filter opts = (svc', Ok edps) ->
        exists body,
          handleGetNotificationEndpoints Find FindResourceLabels svc st r
          = Returns (svc', ListEndpoints StatusOK body)
          /\ respEndpoint <$> respNotificationEndpoints body = edps).
Proof.
  unfold handleGetNotificationEndpoints. split; [|split; [|split]].
  - intros opts Hopts Hid Horg.
    by rewrite (decodeNotificationEndpointFilter_org_panics r opts).
  - by intros e ->.
  - by intros filter opts svc' e -> ->.
  - intros filter opts svc' edps -> ->. eexists. split; [done|].
    simpl. induction edps as [|edp edps IH]; [done|]. simpl.
    f_equal; [|exact IH].
    by destruct (FindResourceLabels st (baseID (Base edp))).
Qed.

(** ** The body of an endpoint response *)

Lemma substring_0_length (s0 : string) : substring 0 (String.length s0) s0 = s0.
Proof. induction s0 as [|c s0 IH]; simpl; [done|by rewrite IH]. Qed.

Lemma substring_0_append_one (x : string) (c : ascii) :
  substring 0 (String.length (x +:+ String c "") - 1) (x +:+ String c "") = x.
Proof.
  induction x as [|a x IH]; [done|].
  simpl in *. rewrite Nat.sub_0_r.
  destruct (String.length (x +:+ String c "")) as [|n] eqn:Hlen.
  - by destruct x.
  - simpl in IH. rewrite Nat.sub_0_r in IH. by rewrite IH.
Qed.

(** The response body is the endpoint's bytes without their last byte, a
    comma and a blank, and the bytes of the labels-and-links struct
    without their first byte: two JSON objects [{x}] and [{y}] are merged
    into [{x, y}].  An error of either marshalling is returned, that of
    the endpoint first; empty bytes would make the slicing panic. *)
Theorem notificationEndpointResponse_MarshalJSON_merge :
  (forall (x y : string) (c d : ascii),
     notificationEndpointResponse_MarshalJSON
       (Ok (x +:+ String c "")) (Ok (String d y))
     = Returns (x +:+ ", " +:+ y))
  /\ (forall x y : string,
        notificationEndpointResponse_MarshalJSON
          (Ok ("{" +:+ x +:+ "}")) (Ok ("{" +:+ y +:+ "}"))
        = Returns ("{" +:+ x +:+ ", " +:+ y +:+ "}"))
  /\ (forall e rest, notificationEndpointResponse_MarshalJSON (Err e) rest
                     = Fails e)
  /\ (forall b1 e, notificationEndpointResponse_MarshalJSON (Ok b1) (Err e)
                   = Fails e)
  /\ (forall b2, notificationEndpointResponse_MarshalJSON (Ok "") (Ok b2)
                 = Panics)
  /\ (forall b1, notificationEndpointResponse_MarshalJSON (Ok b1) (Ok "")
                 = Panics).
Proof.
  assert (Hmerge : forall (x y : string) (c d : ascii),
             notificationEndpointResponse_MarshalJSON
               (Ok (x +:+ String c "")) (Ok (String d y))
             = Returns (x +:+ ", " +:+ y)).
  { intros x y c d.
    unfold notificationEndpointResponse_MarshalJSON, sliceButLast, sliceFromOne.
    rewrite decide_False by (by destruct x).
    rewrite substring_0_append_one. simpl.
    by rewrite Nat.sub_0_r, substring_0_length. }
  split; [exact Hmerge|]. split; [|split; [done|split; [done|split; [done|]]]].
  - intros x y.
    exact (Hmerge (String "{" x) (y +:+ "}") "}"%char "{"%char).
  - intros b1. unfold notificationEndpointResponse_MarshalJSON, sliceButLast.
    by destruct (decide (String.length b1 = 0)).
Qed.

(** ** The HTTP client: create, patch and find *)

(** The client's [Create] leaves the caller's endpoint backfilled, whether
    the request succeeds or not; on success it also takes over the
    identifier and the organization of the endpoint in the response, and
    nothing else.  The secret keys are therefore those derived from the
    identifier the endpoint had before the call. *)
Theorem Client_Create_effect (srv : Server) (ne : NotificationEndpoint) :
  let '(srv', (ne', err)) := Client_Create srv ne in
  Type_ ne' = Type_ ne
  /\ allSecrets ne' = allSecrets (BackfillSecretKeys ne)
  /\ setBase ne' (Base ne) = BackfillSecretKeys ne
  /\ baseName (Base ne') = baseName (Base ne)
  /\ baseDescription (Base ne') = baseDescription (Base ne)
  /\ baseStatus (Base ne') = baseStatus (Base ne)
  /\ baseCreatedAt (Base ne') = baseCreatedAt (Base ne)
  /\ baseUpdatedAt (Base ne') = baseUpdatedAt (Base ne)
  /\ (forall e, err = Some e -> ne' = BackfillSecretKeys ne)
  /\ (err = None ->
      exists resp created,
        PostJSON_Do srv (Encoder_MarshalJSON ne).2 = (srv', Ok resp)
        /\ UnmarshalJSON resp = Ok created
        /\ baseID (Base ne') = baseID (Base created)
        /\ baseOrgID (Base ne') = baseOrgID (Base created)).
Proof.
  unfold Client_Create, Encoder_MarshalJSON, Decoder_UnmarshalJSON. simpl.
  pose proof (Base_BackfillSecretKeys ne) as Hbase.
  assert (Hself : setBase (BackfillSecretKeys ne) (Base ne) = BackfillSecretKeys ne).
  { rewrite <- Hbase. by destruct (BackfillSecretKeys ne) as [[]|[]]. }
  destruct (PostJSON_Do srv _) as [srv' [resp|e]] eqn:Hpost; simpl.
  - destruct (UnmarshalJSON resp) as [created|e] eqn:Hdec; simpl.
    + destruct (setBase_frame (BackfillSecretKeys ne)
                  (withOrgID (withID (Base (BackfillSecretKeys ne))
                                (baseID (Base created)))
                     (baseOrgID (Base created))))
        as (Hb & Ht & Hs & Hf).
      rewrite Hb, Ht, Hs, Hbase. simpl.
      split; [by destruct ne|]. split; [done|].
      split; [by rewrite <- Hself; destruct (BackfillSecretKeys ne) as [[]|[]]|].
      do 5 (split; [done|]). split; [done|].
      intros _. by exists resp, created.
    + rewrite Hbase. split; [by destruct ne|]. by repeat split.
  - rewrite Hbase. split; [by destruct ne|]. by repeat split.
Qed.

(** The client's [patch] sends nothing of the mutated endpoint but its
    identifier, name, description and status: two updates whose mutators,
    run on the empty HTTP endpoint, agree on these four send the same
    request and get the same result. *)
Theorem Client_patch_sends_base_only (srv : Server)
    (update update' : EndpointUpdate) :
  let b := Base (Fn update zeroValue (EpHTTP zeroHTTP)).1 in
  let b' := Base (Fn update' zeroValue (EpHTTP zeroHTTP)).1 in
  baseID b = baseID b' -> baseName b = baseName b' ->
  baseDescription b = baseDescription b' -> baseStatus b = baseStatus b' ->
  Client_patch srv update = Client_patch srv update'.
Proof.
  simpl. unfold Client_patch.
  destruct (Fn update zeroValue (EpHTTP zeroHTTP)) as [e o].
  destruct (Fn update' zeroValue (EpHTTP zeroHTTP)) as [e' o'].
  simpl. by intros -> -> -> ->.
Qed.

Lemma decodeAll_Forall2 (bs : list (gmap string jvalue))
    (es : list NotificationEndpoint) :
  decodeAll bs = Ok es
  <-> Forall2 (fun b e => UnmarshalJSON b = Ok e) bs es.
Proof.
  revert es. induction bs as [|b bs IH]; intros es; simpl.
  - split; [by intros [= <-]; constructor|]. by inversion 1.
  - unfold Decoder_UnmarshalJSON.
    destruct (UnmarshalJSON b) as [e|err] eqn:Hb; simpl.
    + destruct (decodeAll bs) as [es'|err] eqn:Hbs; simpl.
      * split.
        -- intros [= <-]. constructor; [done|]. by apply IH.
        -- inversion 1 as [|? e0 ? es0 He Hes]; subst.
           apply IH in Hes. congruence.
      * split; [done|]. inversion 1 as [|? e0 ? es0 He Hes]; subst.
        by apply IH in Hes.
    + split; [done|]. inversion 1; congruence.
Qed.

(** The query of the client's [Find] is the paging parameters followed by
    exactly these: [orgID] with the text of the identifier if and only if
    the filter has an organization identifier, and [org] with the name if
    and only if it has an organization name, each once.  Nothing else of
    the filter is sent: the user and the resource type never reach the
    server.  Its result is the decoding of every object of the response, in
    order, or an error if one of them does not decode. *)
Theorem Client_Find_spec (srv : Server) (filter : NotificationEndpointFilter)
    (opt : list FindOptions) :
  (exists extra,
     Client_Find_params filter opt = (findOptionParams opt ++ extra)%list
     /\ NoDup extra
     /\ forall kv,
          kv ∈ extra
          <-> (exists i, OrgID filter = Some i /\ kv = ("orgID", marshalText i))
              \/ (exists org, Org filter = Some org /\ kv = ("org", org)))
  /\ (forall filter',
        OrgID filter' = OrgID filter -> Org filter' = Org filter ->
        Client_Find srv filter' opt = Client_Find srv filter opt)
  /\ (forall srv' bs es,
        GetList_Do srv (Client_Find_params filter opt) = (srv', Ok bs) ->
        (Client_Find srv filter opt = (srv', Ok es)
         <-> Forall2 (fun b e => UnmarshalJSON b = Ok e) bs es)).
Proof.
  split; [|split].
  - unfold Client_Find_params.
    destruct (OrgID filter) as [i|], (Org filter) as [org|].
    + exists [("orgID", marshalText i); ("org", org)].
      split; [by rewrite <- app_assoc|]. split.
      * apply NoDup_cons. split; [|apply NoDup_singleton].
        rewrite list_elem_of_singleton. by intros [=].
      * intros kv. rewrite elem_of_cons, list_elem_of_singleton. split.
        -- intros [->| ->]; eauto.
        -- intros [(? & [= <-] & ->)|(? & [= <-] & ->)]; auto.
    + exists [("orgID", marshalText i)].
      split; [done|]. split; [apply NoDup_singleton|].
      intros kv. rewrite list_elem_of_singleton. split.
      * intros ->; eauto.
      * by intros [(? & [= <-] & ->)|(? & [=] & _)].
    + exists [("org", org)].
      split; [done|]. split; [apply NoDup_singleton|].
      intros kv. rewrite list_elem_of_singleton. split.
      * intros ->; eauto.
      * by intros [(? & [=] & _)|(? & [= <-] & ->)].
    + exists []. split; [by rewrite app_nil_r|]. split; [apply NoDup_nil_2|].
      intros kv. split; [by intros ?%elem_of_nil|].
      by intros [(? & [=] & _)|(? & [=] & _)].
  - intros filter' Ho Hn. unfold Client_Find, Client_Find_params.
    by rewrite Ho, Hn.
  - intros srv' bs es Hget. unfold Client_Find. rewrite Hget. simpl.
    rewrite <- decodeAll_Forall2.
    split; [|by intros ->]. intros [= H]. by rewrite H.
Qed.

(** ** Error paths of the create and replace handlers *)

(** Whenever the create handler answers with an error, the label service
    is as it was: labels are attached only after the endpoint was created.
    A request that does not decode, or has no authorizer, does not reach
    the endpoint service either; and the only status of a non-error answer
    is [201]. *)
Theorem handlePostNotificationEndpoint_errors (svc svc' : Svc) (st st' : LS)
    (r : Request) (resp : httpResponse) :
  handlePostNotificationEndpoint svc st r = (svc', st', resp) ->
  (forall e, resp = RespError e -> st' = st)
  /\ (forall status body, resp = RespEndpoint status body ->
        status = StatusCreated)
  /\ (forall e, decodePostNotificationEndpointRequest r = Err e ->
        svc' = svc /\ resp = RespError e)
  /\ (forall e, GetAuthorizer r = Err e ->
        svc' = svc /\ exists e', resp = RespError e').
Proof.
  unfold handlePostNotificationEndpoint.
  destruct (decodePostNotificationEndpointRequest r) as [edp|e].
  - destruct (GetAuthorizer r) as [userID|e].
    + destruct (Service_Create svc userID (postEndpoint edp))
        as [svc1 [created [e|]]].
      * intros [= <- <- <-]. by split; [|split; [|split]].
      * destruct (mapNewNotificationEndpointLabels st created (postLabels edp))
          as [st1 labels].
        intros [= <- <- <-]. split; [done|]. split; [|by split].
        by intros status body [= <- _].
    + intros [= <- <- <-]. split; [done|]. split; [done|]. split; [done|].
      intros e' [= <-]. split; [done|]. by exists e.
  - intros [= <- <- <-]. split; [done|]. split; [done|]. split.
    + by intros e' [= <-].
    + intros e' _. split; [done|]. by exists e.
Qed.

(** Whenever the replace handler answers with an endpoint, the status is
    [200], the request decoded to an endpoint carrying the identifier of
    the path, the update built from that endpoint is the one the service
    ran, and the body holds the endpoint the service returned with its
    labels. *)
Theorem handlePutNotificationEndpoint_spec {S : Type}
    (UpdateEndpoint : NotificationEndpoint -> EndpointUpdate)
    (Update : S -> EndpointUpdate -> S * result NotificationEndpoint)
    (FindResourceLabels : LS -> ID -> list Label * option Error)
    (svc svc' : S) (st : LS) (r : Request) (status : nat)
    (body : notificationEndpointResponse) :
  handlePutNotificationEndpoint UpdateEndpoint Update FindResourceLabels svc st r
  = (svc', RespEndpoint status body) ->
  status = StatusOK
  /\ exists edp,
       decodePutNotificationEndpointRequest r = Ok edp
       /\ IDFromString (ByName (reqParams r) "id") = Ok (baseID (Base edp))
       /\ Update svc (UpdateEndpoint edp) = (svc', Ok (respEndpoint body))
       /\ FindResourceLabels st (baseID (Base (respEndpoint body)))
          = (respLabels body, None).
Proof.
  unfold handlePutNotificationEndpoint.
  destruct (decodePutNotificationEndpointRequest r) as [edp|e] eqn:Hdec;
    [|done].
  destruct (Update svc (UpdateEndpoint edp)) as [svc1 [edp1|e]] eqn:Hupd;
    [|done].
  destruct (FindResourceLabels st (baseID (Base edp1))) as [labels [e|]] eqn:Hl;
    [done|].
  intros [= <- <- <-]. split; [done|]. exists edp.
  destruct (newNotificationEndpointResponse_labels edp1 labels) as [He Hls].
  rewrite He, Hls. split; [done|]. split; [|done].
  revert Hdec. unfold decodePutNotificationEndpointRequest.
  destruct (UnmarshalJSON (reqBody r)) as [d|e]; [|done].
  destruct (IDFromString (ByName (reqParams r) "id")) as [i|e]; [|done].
  intros [= <-]. by destruct d as [[]|[]].
Qed.

(** The client's [update] ignores the error its mutator returns: two
    updates whose mutators return the same endpoint on the empty HTTP
    endpoint send the same request, whatever errors they return with it. *)
Theorem Client_update_ignores_mutator_error (srv : Server)
    (update update' : EndpointUpdate) :
  (Fn update zeroValue (EpHTTP zeroHTTP)).1
  = (Fn update' zeroValue (EpHTTP zeroHTTP)).1 ->
  Client_update srv update = Client_update srv update'.
Proof.
  unfold Client_update.
  destruct (Fn update zeroValue (EpHTTP zeroHTTP)) as [e o].
  destruct (Fn update' zeroValue (EpHTTP zeroHTTP)) as [e' o'].
  simpl. by intros ->.
Qed.

End Model.

(** * The scenarios of the handler tests

    Identifiers and instants in their text form, as the handler tests
    write them. *)

Inductive instant := Instant (rfc3339 : string).

(** The text after a prefix, if the string starts with it. *)
Fixpoint stripPrefix (p s : string) : option string :=
  match p, s with
  | EmptyString, _ => Some s
  | String a p, String b s => if decide (a = b) then stripPrefix p s else None
  | String _ _, EmptyString => None
  end.

Lemma stripPrefix_app (p s : string) : stripPrefix p (p +:+ s) = Some s.
Proof.
  induction p as [|a p IH]; simpl; [done|]. by rewrite decide_True.
Qed.

(** The reader of secrets used in the scenarios: the text that
    [SecretField_String] writes for a key is read as that key, any other
    non-empty text as a plaintext value without a key, and the empty text
    as the zero value. *)
#[export] Instance scenario_SecretReader : SecretReader := fun w =>
  if decide (w = "") then {| Key := ""; Value := None |}
  else match stripPrefix "secret: " w with
       | Some k => {| Key := k; Value := None |}
       | None => {| Key := ""; Value := Some w |}
       end.

Lemma scenario_SecretReader_key (f : SecretField) :
  Key (SecretField_UnmarshalJSON (SecretField_String f)) = Key f.
Proof.
  unfold SecretField_String, SecretField_UnmarshalJSON, scenario_SecretReader.
  destruct (decide (Key f = "")) as [->|Hk]; [done|].
  rewrite decide_False by done.
  by rewrite (stripPrefix_app "secret: " (Key f)).
Qed.

#[export] Instance string_TextCodec : TextCodec string :=
  {| marshalText := fun s => s;
     unmarshalText := fun s => Some s;
     zeroValue := "";
     unmarshal_marshal := fun s => eq_refl |}.

#[export] Instance instant_TextCodec : TextCodec instant :=
  {| marshalText := fun t => match t with Instant s => s end;
     unmarshalText := fun s => Some (Instant s);
     zeroValue := Instant "0001-01-01T00:00:00Z";
     unmarshal_marshal := fun t => match t with Instant s => eq_refl end |}.

(** A [url.Parse] and an [HTTP.Valid] that accept everything. *)
Definition parse_ok (_ : string) : option string := None.
Definition http_ok (_ : @HTTP string instant) : option Error := None.

Definition testBase : @EndpointBase string instant :=
  {| baseID := "020f755c3c082000"; baseOrgID := "020f755c3c082000";
     baseName := "hello"; baseDescription := ""; baseStatus := Active;
     baseCreatedAt := zeroValue; baseUpdatedAt := zeroValue |}.

(** The slack endpoint of the patch test. *)
Definition testSlack : @Slack string instant :=
  {| slackBase := testBase; URL := "http://example.com";
     Token := {| Key := ""; Value := None |} |}.

(** The same endpoint holding a token value and no key yet. *)
Definition testSlackToken : @Slack string instant :=
  {| slackBase := testBase; URL := "http://example.com";
     Token := {| Key := ""; Value := Some "tok" |} |}.

(** Its wire form as a client would post it. *)
Definition testSlackWire : gmap string jvalue :=
  <["type" := JStr "slack"]>
  (<["id" := JStr "020f755c3c082000"]>
  (<["orgID" := JStr "020f755c3c082000"]>
  (<["name" := JStr "hello"]>
  (<["status" := JStr "active"]>
  (<["createdAt" := JStr "0001-01-01T00:00:00Z"]>
  (<["updatedAt" := JStr "0001-01-01T00:00:00Z"]>
  (<["url" := JStr "http://example.com"]>
  (<["token" := JStr "tok"]> ∅)))))))).

(** The HTTP endpoint of the create test, identifier assigned. *)
Definition testHTTP : @HTTP string instant :=
  {| httpBase :=
       {| baseID := "020f755c3c082000"; baseOrgID := "6f626f7274697320";
          baseName := "hello"; baseDescription := "desc1"; baseStatus := Active;
          baseCreatedAt := zeroValue; baseUpdatedAt := zeroValue |};
     httpURL := "example.com"; httpHeaders := ∅;
     httpToken := {| Key := ""; Value := None |};
     httpUsername := {| Key := ""; Value := Some "user1" |};
     httpPassword := {| Key := ""; Value := Some "password1" |};
     httpAuthMethod := "basic"; httpMethod := "POST";
     httpContentTemplate := "template" |}.

Example testSlackWire_decodes :
  UnmarshalJSON testSlackWire = Ok (EpSlack testSlackToken).
Proof. by vm_compute. Qed.

(** The create scenario: the encoded response shows the derived keys. *)
Example testHTTP_encoded :
  let o := MarshalJSON (BackfillSecretKeys (EpHTTP testHTTP)) in
  o !! "username" = Some (JStr "secret: 020f755c3c082000-username")
  /\ o !! "password" = Some (JStr "secret: 020f755c3c082000-password")
  /\ o !! "token" = Some (JStr "")
  /\ o !! "type" = Some (JStr "http").
Proof. by vm_compute. Qed.

(** Validation of the slack endpoint of the patch test, and of the same
    endpoint without a URL. *)
Example testSlack_valid : Slack_Valid parse_ok testSlack = None.
Proof. reflexivity. Qed.

Example testSlack_no_URL :
  Slack_Valid parse_ok
    {| slackBase := testBase; URL := ""; Token := Token testSlack |}
  = Some {| Code := EInvalid; Msg := "slack endpoint URL must be provided" |}.
Proof. reflexivity. Qed.

(** Backfill twice on the slack endpoint holding a token value. *)
Lemma BackfillSecretKeys_idempotent_witness :
  1 <= 2
  /\ Nat.iter 2 BackfillSecretKeys (EpSlack testSlackToken)
     = BackfillSecretKeys (EpSlack testSlackToken).
Proof.
  split; [lia|].
  apply (BackfillSecretKeys_idempotent (EpSlack testSlackToken) 2). lia.
Defined.

Example testSlackToken_backfilled :
  secretKeys (BackfillSecretKeys (EpSlack testSlackToken))
  = ["020f755c3c082000-token"].
Proof. by vm_compute. Qed.


(** C9 at a failing input.  The client's encoder on the slack endpoint
    ["020f755c3c082000"] holding the token value ["tok"]: the backfilled key
    ["020f755c3c082000-token"] is looked up whole in the suffix table and is
    not found, so the plaintext is written under the empty name while
    ["token"] stays empty.  On the HTTP endpoint of the create test the
    user name and the password are both written under the empty name, the
    password last, and ["username"] and ["password"] stay empty. *)
Lemma Encoder_MarshalJSON_misses_public_name :
  (let '(_, o) := Encoder_MarshalJSON (EpSlack testSlackToken) in
   o !! "token" = Some (JStr "") /\ o !! "" = Some (JStr "tok"))
  /\ (let '(_, o) := Encoder_MarshalJSON (EpHTTP testHTTP) in
      o !! "username" = Some (JStr "")
      /\ o !! "password" = Some (JStr "")
      /\ o !! "" = Some (JStr "password1"))
  /\ mapIndex fieldMap "020f755c3c082000-username" = ""
  /\ mapIndex fieldMap "-username" = "username".
Proof.
  split; [by apply (Encoder_MarshalJSON_Slack_token testSlackToken "tok")|].
  by vm_compute.
Qed.

(** A mutator that leaves the endpoint as it is, under an unknown mode. *)
Definition testBogusUpdate : @EndpointUpdate string instant :=
  {| UpdateType := "bogus"; updateID := "020f755c3c082000";
     Fn := fun _ e => (e, None) |}.

(** A transport that refuses every request. *)
Definition refusePut (srv : unit) (_ : gmap string jvalue) (_ : string)
  : unit * result (gmap string jvalue) :=
  (srv, Err {| Code := EInternal; Msg := "connection refused" |}).

Definition refusePatch (srv : unit)
    (_ : @NotificationEndpointUpdate) (_ : string)
  : unit * result (gmap string jvalue) :=
  (srv, Err {| Code := EInternal; Msg := "connection refused" |}).

Lemma Client_Update_unknown_mode_witness :
  UpdateType testBogusUpdate <> "endpoint"
  /\ UpdateType testBogusUpdate <> "change_set"
  /\ Client_Update refusePut refusePatch tt testBogusUpdate
     = (tt, Err {| Code := EInvalid; Msg := "invalid update provided" |}).
Proof.
  assert (H1 : UpdateType testBogusUpdate <> "endpoint") by discriminate.
  assert (H2 : UpdateType testBogusUpdate <> "change_set") by discriminate.
  split; [exact H1|]. split; [exact H2|].
  exact (Client_Update_unknown_mode refusePut refusePatch tt testBogusUpdate H1 H2).
Defined.

(** The patch scenario: the stored slack endpoint, renamed. *)
Definition testStore : gmap string (@NotificationEndpoint string instant) :=
  <["020f755c3c082000" := EpSlack testSlack]> ∅.

Definition testNow : instant := Instant "2006-05-04T01:02:03Z".

Definition testSlackRenamed : @Slack string instant :=
  {| slackBase :=
       {| baseID := "020f755c3c082000"; baseOrgID := "020f755c3c082000";
          baseName := "example"; baseDescription := ""; baseStatus := Active;
          baseCreatedAt := zeroValue; baseUpdatedAt := testNow |};
     URL := "http://example.com";
     Token := {| Key := ""; Value := None |} |}.

Lemma change_set_name_only_frame_witness :
  Service_Update parse_ok http_ok testStore testNow
    (UpdateChangeSet "020f755c3c082000" (nameOnly "example"))
  = (<["020f755c3c082000" := EpSlack testSlackRenamed]> testStore,
     Ok (EpSlack testSlackRenamed))
  /\ exists e,
      testStore !! "020f755c3c082000" = Some e
      /\ setBase (EpSlack testSlackRenamed) (Base e) = e
      /\ secretKeys (EpSlack testSlackRenamed) = secretKeys e.
Proof.
  assert (H : Service_Update parse_ok http_ok testStore testNow
                (UpdateChangeSet "020f755c3c082000" (nameOnly "example"))
              = (<["020f755c3c082000" := EpSlack testSlackRenamed]> testStore,
                 Ok (EpSlack testSlackRenamed)))
    by (vm_compute; reflexivity).
  split; [exact H|].
  destruct (change_set_name_only_frame parse_ok http_ok _ _ _ _ _ _ H)
    as (e & Hget & _ & _ & _ & Hframe & Hkeys & _).
  exists e. split; [exact Hget|]. split; [exact Hframe|exact Hkeys].
Defined.

(** The create scenario with two label identifiers, of which the label
    service knows the first. *)
Definition testFindLabel (_ : list (@LabelMapping string)) (lid : string)
  : result string :=
  if decide (lid = "fc3dc670a4be9b9a") then Ok lid
  else Err {| Code := ENotFound; Msg := "label not found" |}.

Definition testCreateMapping (st : list (@LabelMapping string))
    (m : @LabelMapping string)
  : list (@LabelMapping string) * option Error :=
  (m :: st, None).

(** The [CreateF] of the create test: the identifier is assigned and the
    secret keys are backfilled. *)
Definition testCreate (svc : unit) (_ : string)
    (edp : @NotificationEndpoint string instant)
  : unit * (@NotificationEndpoint string instant * option Error) :=
  let b := Base edp in
  let edp :=
    setBase edp
      {| baseID := "020f755c3c082000"; baseOrgID := baseOrgID b;
         baseName := baseName b; baseDescription := baseDescription b;
         baseStatus := baseStatus b; baseCreatedAt := baseCreatedAt b;
         baseUpdatedAt := baseUpdatedAt b |} in
  (svc, (BackfillSecretKeys edp, None)).

Definition testPostRequest : @Request string :=
  {| reqParams := ∅; reqQuery := ∅;
     reqBody :=
       <["labels" := JStrList ["fc3dc670a4be9b9a"; "ffffffffffffffff"]]>
         testSlackWire;
     reqAuthorizer := Some "6f626f7274697320" |}.

Definition testCreated : @NotificationEndpoint string instant :=
  EpSlack {| slackBase := testBase; URL := "http://example.com";
             Token := {| Key := "020f755c3c082000-token"; Value := Some "tok" |} |}.

Lemma handlePostNotificationEndpoint_labels_witness :
  decodePostNotificationEndpointRequest testPostRequest
  = Ok {| postEndpoint := EpSlack testSlackToken;
          postLabels := ["fc3dc670a4be9b9a"; "ffffffffffffffff"] |}
  /\ exists st' resp,
      handlePostNotificationEndpoint testCreate (fun l : string => l)
        testFindLabel testCreateMapping "notificationEndpoints"
        tt [] testPostRequest
      = (tt, st', RespEndpoint StatusCreated resp)
      /\ respEndpoint resp = testCreated
      /\ respLabels resp = ["fc3dc670a4be9b9a"].
Proof.
  assert (Hdec : decodePostNotificationEndpointRequest testPostRequest
                 = Ok {| postEndpoint := EpSlack testSlackToken;
                         postLabels := ["fc3dc670a4be9b9a"; "ffffffffffffffff"] |})
    by (vm_compute; reflexivity).
  assert (Hauth : GetAuthorizer testPostRequest = Ok "6f626f7274697320")
    by reflexivity.
  assert (Hcreate : testCreate tt "6f626f7274697320" (EpSlack testSlackToken)
                    = (tt, (testCreated, None)))
    by (vm_compute; reflexivity).
  split; [exact Hdec|].
  destruct (handlePostNotificationEndpoint_labels_best_effort
              testCreate (fun l : string => l) testFindLabel testCreateMapping
              "notificationEndpoints" tt tt [] testPostRequest _ _ _
              Hdec Hauth Hcreate)
    as (st' & ls & resp & _ & Hmap & Hh & He & Hl).
  exists st', resp. split; [exact Hh|]. split; [exact He|].
  vm_compute in Hmap. injection Hmap as _ <-. exact Hl.
Defined.

(** A list request naming the organization, with find options that
    decode. *)
Definition testFindOptions (_ : @Request string) : result unit := Ok tt.

Definition testListByOrg : @Request string :=
  {| reqParams := ∅;
     reqQuery := <["org" := ["myorg"]]> ∅;
     reqBody := ∅;
     reqAuthorizer := Some "6f626f7274697320" |}.

Definition testListByOrgID : @Request string :=
  {| reqParams := ∅;
     reqQuery := <["orgID" := ["50f7ba1150f7ba11"]]> ∅;
     reqBody := ∅;
     reqAuthorizer := Some "6f626f7274697320" |}.

Example decodeNotificationEndpointFilter_orgID :
  decodeNotificationEndpointFilter "notificationEndpoints" testFindOptions
    testListByOrgID
  = Returns ({| OrgID := Some "50f7ba1150f7ba11"; Org := None;
                filterURM := {| ResourceType := "notificationEndpoints";
                                UserID := "" |} |}, tt).
Proof. by vm_compute. Qed.

(** C10 at a failing input.  Decoding the filter of
    [GET /api/v2/notificationEndpoints?org=myorg] neither returns a filter
    nor an error: the assignment [*f.Org = orgNameStr] goes through the
    [nil] pointer of the freshly built filter and panics. *)
Lemma decodeNotificationEndpointFilter_org_nil_dereference :
  decodeNotificationEndpointFilter "notificationEndpoints" testFindOptions
    testListByOrg
  = Panics.
Proof.
  by apply (decodeNotificationEndpointFilter_org_panics
              "notificationEndpoints" testFindOptions testListByOrg tt).
Qed.

(** * The null dialect

    [query.NullEncoder]: an encoder that consumes its results, releases
    what it is handed, and writes [null]. *)

Section NullDialect.
Set Default Proof Using "Type".

(** Column readers, Go errors and the [io.Writer] are those of the caller.
    The iterators of [flux] are taken with the contract of their [Do]: the
    callback is run on each item in turn, its first error ends the
    iteration and is returned, and otherwise the iterator's own error, if
    it has one, is returned after its items. *)
Context {ColReader GoError W : Type}.

(** [io.Writer.Write]. *)
Variable Write : W -> string -> W * (nat * option GoError).

(** A [flux.Table]: the column readers it hands to [Do], then its error. *)
Record Table := mkTable {
  tableCols : list ColReader;
  tableErr : option GoError
}.

(** A [flux.Result], through its [Tables()]. *)
Record Result := mkResult {
  resultTables : list Table;
  resultErr : option GoError
}.

(** What [Encode] acts on: the column readers released so far, how often
    the result iterator has been released, and the writer. *)
Record EncodeState := mkEncodeState {
  releasedCols : list ColReader;
  iteratorReleases : nat;
  writer : W
}.

(** [Do] of a table or of a table iterator. *)
Fixpoint iterDo {A : Type} (f : EncodeState -> A -> EncodeState * option GoError)
    (st : EncodeState) (items : list A) (own : option GoError)
  : EncodeState * option GoError :=
  match items with
  | [] => (st, own)
  | x :: items =>
    match f st x with
    | (st, Some err) => (st, Some err)
    | (st, None) => iterDo f st items own
    end
  end.

(** The innermost callback: [cr.Release(); return nil]. *)
Definition releaseCol (st : EncodeState) (cr : ColReader)
  : EncodeState * option GoError :=
  ({| releasedCols := (releasedCols st ++ [cr])%list;
      iteratorReleases := iteratorReleases st;
      writer := writer st |}, None).

(** The callback on tables: [tbl.Do(...)]. *)
Definition consumeTable (st : EncodeState) (tbl : Table)
  : EncodeState * option GoError :=
  iterDo releaseCol st (tableCols tbl) (tableErr tbl).

(** The loop [for results.More() { ... results.Next().Tables().Do(...) }],
    left at the first error. *)
Fixpoint consumeResults (st : EncodeState) (results : list Result)
  : EncodeState * option GoError :=
  match results with
  | [] => (st, None)
  | res :: results =>
    match iterDo consumeTable st (resultTables res) (resultErr res) with
    | (st, Some err) => (st, Some err)
    | (st, None) => consumeResults st results
    end
  end.

(** The deferred [results.Release()]. *)
Definition releaseIterator (st : EncodeState) : EncodeState :=
  {| releasedCols := releasedCols st;
     iteratorReleases := S (iteratorReleases st);
     writer := writer st |}.

(** [func (e *NullEncoder) Encode(w io.Writer, results flux.ResultIterator)
    (int64, error)]. *)
Definition NullEncoder_Encode (w : W) (results : list Result)
  : EncodeState * (nat * option GoError) :=
  let st := {| releasedCols := []; iteratorReleases := 0; writer := w |} in
  match consumeResults st results with
  | (st, Some err) => (releaseIterator st, (0, Some err))
  | (st, None) =>
    let '(w, (n, err)) := Write (writer st) "null" in
    (releaseIterator
       {| releasedCols := releasedCols st;
          iteratorReleases := iteratorReleases st;
          writer := w |},
     (n, err))
  end.

(** The column readers of a table, of a result, of all results. *)
Definition resultCols (res : Result) : list ColReader :=
  concat (tableCols <$> resultTables res).

Definition allCols (results : list Result) : list ColReader :=
  concat (resultCols <$> results).

(** No table and no result carries an error. *)
Definition errorFree (results : list Result) : Prop :=
  Forall (fun res =>
            resultErr res = None
            /\ Forall (fun tbl => tableErr tbl = None) (resultTables res))
         results.

(** The first error met when the tables of a result, and the results, are
    gone through in order. *)
Fixpoint firstErrorTables (tbls : list Table) (own : option GoError)
  : option GoError :=
  match tbls with
  | [] => own
  | tbl :: tbls =>
    match tableErr tbl with
    | Some e => Some e
    | None => firstErrorTables tbls own
    end
  end.

Fixpoint firstError (results : list Result) : option GoError :=
  match results with
  | [] => None
  | res :: results =>
    match firstErrorTables (resultTables res) (resultErr res) with
    | Some e => Some e
    | None => firstError results
    end
  end.

Lemma iterDo_releaseCol (st : EncodeState) (cols : list ColReader)
    (own : option GoError) :
  iterDo releaseCol st cols own
  = ({| releasedCols := (releasedCols st ++ cols)%list;
        iteratorReleases := iteratorReleases st;
        writer := writer st |}, own).
Proof.
  revert st. induction cols as [|cr cols IH]; intros st; simpl.
  - rewrite app_nil_r. by destruct st.
  - rewrite IH. simpl. by rewrite <- app_assoc.
Qed.

(** Consuming results never touches the writer or the iterator; it
    releases a prefix of the column readers, all of them unless an error
    ends it, and ends with the first error. *)
Lemma iterDo_consumeTable_frame (st : EncodeState) (tbls : list Table)
    (own : option GoError) :
  let '(st', err) := iterDo consumeTable st tbls own in
  writer st' = writer st
  /\ iteratorReleases st' = iteratorReleases st
  /\ err = firstErrorTables tbls own
  /\ exists more rest,
       releasedCols st' = (releasedCols st ++ more)%list
       /\ concat (tableCols <$> tbls) = (more ++ rest)%list
       /\ (err = None -> rest = []).
Proof.
  revert st. induction tbls as [|tbl tbls IH]; intros st; simpl.
  - repeat split. exists [], []. by rewrite app_nil_r.
  - unfold consumeTable at 1. rewrite iterDo_releaseCol.
    destruct (tableErr tbl) as [e|].
    + simpl. repeat split. by eexists _, _.
    + specialize (IH {| releasedCols := (releasedCols st ++ tableCols tbl)%list;
                        iteratorReleases := iteratorReleases st;
                        writer := writer st |}).
      destruct (iterDo consumeTable _ tbls own) as [st' o]. simpl in IH.
      destruct IH as (Hw & Hi & He & more & rest & Hr & Hc & Hn).
      repeat split; [done..|].
      exists (tableCols tbl ++ more)%list, rest.
      split; [by rewrite Hr, <- app_assoc|]. split; [|done].
      rewrite <- app_assoc. f_equal. exact Hc.
Qed.

Lemma consumeResults_frame (st : EncodeState) (results : list Result) :
  let '(st', err) := consumeResults st results in
  writer st' = writer st
  /\ iteratorReleases st' = iteratorReleases st
  /\ err = firstError results
  /\ exists more rest,
       releasedCols st' = (releasedCols st ++ more)%list
       /\ allCols results = (more ++ rest)%list
       /\ (err = None -> rest = []).
Proof.
  revert st. induction results as [|res results IH]; intros st; simpl.
  - repeat split. exists [], []. by rewrite app_nil_r.
  - pose proof (iterDo_consumeTable_frame st (resultTables res) (resultErr res))
      as H1.
    destruct (iterDo consumeTable st (resultTables res) (resultErr res))
      as [st1 [e|]];
      destruct H1 as (Hw & Hi & He & more1 & rest1 & Hr & Hc & Hn).
    + rewrite <- He. repeat split; [done..|].
      exists more1, (rest1 ++ allCols results)%list.
      split; [done|]. split; [|done].
      unfold allCols at 1; simpl. unfold resultCols at 1.
      by rewrite Hc, <- app_assoc.
    + rewrite <- He. rewrite (Hn eq_refl), app_nil_r in Hc.
      specialize (IH st1). destruct (consumeResults st1 results) as [st' o].
      destruct IH as (Hw' & Hi' & He' & more & rest & Hr' & Hc' & Hn').
      rewrite Hw', Hi', Hw, Hi. repeat split; [done|].
      exists (more1 ++ more)%list, rest.
      split; [by rewrite Hr', Hr, <- app_assoc|]. split; [|done].
      unfold allCols at 1; simpl. unfold resultCols at 1.
      by rewrite Hc, <- app_assoc, <- Hc'.
Qed.

Lemma iterDo_consumeTable_errorFree (st : EncodeState) (tbls : list Table) 
    (own : option GoError) :
  Forall (fun tbl => tableErr tbl = None) tbls ->
  iterDo consumeTable st tbls own
  = ({| releasedCols := (releasedCols st ++ concat (tableCols <$> tbls))%list;
        iteratorReleases := iteratorReleases st;
        writer := writer st |}, own).
Proof.
  intros H. revert st. induction H as [|tbl tbls Ht _ IH]; intros st; simpl.
  - rewrite app_nil_r. by destruct st.
  - unfold consumeTable at 1. rewrite iterDo_releaseCol, Ht, IH. simpl.
    by rewrite <- app_assoc.
Qed.

Lemma consumeResults_errorFree (st : EncodeState) (results : list Result) :
  errorFree results ->
  consumeResults st results
  = ({| releasedCols := (releasedCols st ++ allCols results)%list;
        iteratorReleases := iteratorReleases st;
        writer := writer st |}, None).
Proof.
  intros H. revert st.
  induction H as [|res results [He Ht] _ IH]; intros st; simpl.
  - rewrite app_nil_r. by destruct st.
  - rewrite iterDo_consumeTable_errorFree, He, IH by done. simpl.
    unfold allCols, resultCols. simpl. by rewrite <- app_assoc.
Qed.

(** On results that carry no error, [Encode] releases every column reader
    of every table once, in order, releases the result iterator once,
    hands the writer the four bytes [null] in a single [Write], and
    returns what that [Write] returned: the output does not depend on the
    results. *)
Theorem NullEncoder_Encode_errorFree (w : W) (results : list Result) :
  errorFree results ->
  NullEncoder_Encode w results
  = ({| releasedCols := allCols results;
        iteratorReleases := 1;
        writer := (Write w "null").1 |},
     (Write w "null").2).
Proof.
  intros H. unfold NullEncoder_Encode.
  rewrite consumeResults_errorFree by done. simpl.
  by destruct (Write w "null") as [w' [n err]].
Qed.

(** Whatever the results, [Encode] releases the result iterator exactly
    once and releases a prefix of the column readers, in order.  If a
    table or a result carries an error, it returns zero bytes with the
    first such error and the writer is untouched: nothing is written.
    Otherwise it writes [null] once and returns what the writer returned,
    having released every column reader. *)
Theorem NullEncoder_Encode_null_or_nothing (w : W) (results : list Result) :
  let '(st, (n, err)) := NullEncoder_Encode w results in
  iteratorReleases st = 1
  /\ releasedCols st `prefix_of` allCols results
  /\ match firstError results with
     | Some e => err = Some e /\ n = 0 /\ writer st = w
     | None =>
       (writer st, (n, err)) = Write w "null"
       /\ releasedCols st = allCols results
     end.
Proof.
  unfold NullEncoder_Encode.
  pose proof (consumeResults_frame
                {| releasedCols := []; iteratorReleases := 0; writer := w |}
                results) as H.
  destruct (consumeResults _ results) as [st [e|]]; simpl in *;
    destruct H as (Hw & Hi & He & more & rest & Hr & Hc & Hn).
  - rewrite Hi, <- He. split; [done|]. split; [|done].
    exists rest. by rewrite Hr.
  - rewrite Hw, <- He. destruct (Write w "null") as [w' [n err]]. simpl.
    rewrite Hi. split; [done|].
    rewrite (Hn eq_refl), app_nil_r in Hc.
    split; [exists []; by rewrite app_nil_r, Hr, Hc|].
    split; [done|]. by rewrite Hr, Hc.
Qed.

End NullDialect.

(** * Further scenarios *)

(** A slack endpoint not created yet: no identifier, a token value. *)
Definition testSlackNew : @Slack string instant :=
  {| slackBase :=
       {| baseID := ""; baseOrgID := "50f7ba1150f7ba11"; baseName := "hello";
          baseDescription := ""; baseStatus := Active;
          baseCreatedAt := zeroValue; baseUpdatedAt := zeroValue |};
     URL := "http://example.com";
     Token := {| Key := ""; Value := Some "tok" |} |}.

Lemma Encoder_MarshalJSON_unassigned_id_witness :
  Key (Token testSlackNew) = ""
  /\ Value (Token testSlackNew) = Some "tok"
  /\ marshalText (baseID (slackBase testSlackNew)) = ""
  /\ snd (Encoder_MarshalJSON (EpSlack testSlackNew)) !! "token"
     = Some (JStr "tok").
Proof.
  assert (Hk : Key (Token testSlackNew) = "") by reflexivity.
  assert (Hv : Value (Token testSlackNew) = Some "tok") by reflexivity.
  assert (Hid : marshalText (baseID (slackBase testSlackNew)) = "")
    by reflexivity.
  split; [exact Hk|]. split; [exact Hv|]. split; [exact Hid|].
  rewrite (Encoder_MarshalJSON_unassigned_id testSlackNew "tok" Hk Hv Hid).
  simpl. apply lookup_insert_eq.
Defined.

Lemma Encoder_MarshalJSON_frame_witness :
  ("url" ∉ [""; "password"; "routingKey"; "token"; "username"])
  /\ snd (Encoder_MarshalJSON (EpSlack testSlackToken)) !! "url"
     = MarshalJSON (EpSlack testSlackToken) !! "url".
Proof.
  assert (H : "url" ∉ [""; "password"; "routingKey"; "token"; "username"]).
  { intros Hin. repeat (apply elem_of_cons in Hin as [Hin|Hin]; [discriminate|]).
    by apply elem_of_nil in Hin. }
  split; [exact H|].
  exact (proj2 (Encoder_MarshalJSON_frame (EpSlack testSlackToken) "url" H)).
Defined.

Lemma Encoder_MarshalJSON_no_secret_witness :
  Forall (fun f => Key f = "" /\ Value f = None) (allSecrets (EpSlack testSlack))
  /\ Encoder_MarshalJSON (EpSlack testSlack)
     = (EpSlack testSlack, MarshalJSON (EpSlack testSlack)).
Proof.
  assert (H : Forall (fun f => Key f = "" /\ Value f = None)
                     (allSecrets (EpSlack testSlack)))
    by (repeat constructor).
  split; [exact H|]. exact (Encoder_MarshalJSON_no_secret _ H).
Defined.

(** A list request that gives both the identifier and the name of the
    organization. *)
Definition testListBoth : @Request string :=
  {| reqParams := ∅;
     reqQuery := <["orgID" := ["50f7ba1150f7ba11"]]> (<["org" := ["myorg"]]> ∅);
     reqBody := ∅;
     reqAuthorizer := Some "6f626f7274697320" |}.

Lemma decodeNotificationEndpointFilter_orgID_roundtrip_witness :
  Query_Get (reqQuery testListBoth) "org" = "myorg"
  /\ decodeNotificationEndpointFilter "notificationEndpoints" testFindOptions
       testListBoth
     = Returns ({| OrgID := Some "50f7ba1150f7ba11"; Org := None;
                   filterURM := {| ResourceType := "notificationEndpoints";
                                   UserID := "" |} |}, tt).
Proof.
  split; [by vm_compute|].
  assert (H1 : testFindOptions testListBoth = Ok tt) by reflexivity.
  assert (H2 : Query_Get (reqQuery testListBoth) "orgID"
               = marshalText "50f7ba1150f7ba11") by (vm_compute; reflexivity).
  assert (H3 : marshalText "50f7ba1150f7ba11" <> "") by discriminate.
  assert (H4 : Query_Get (reqQuery testListBoth) "user" = "")
    by (vm_compute; reflexivity).
  exact (decodeNotificationEndpointFilter_orgID_roundtrip
           "notificationEndpoints" testFindOptions testListBoth tt
           "50f7ba1150f7ba11" H1 H2 H3 H4).
Defined.

Lemma decodeNotificationEndpointFilter_returns_witness :
  exists f,
    decodeNotificationEndpointFilter "notificationEndpoints" testFindOptions
      testListByOrgID = Returns (f, tt)
    /\ Org f = None
    /\ ResourceType (filterURM f) = "notificationEndpoints".
Proof.
  eexists. split; [by vm_compute|].
  pose proof (decodeNotificationEndpointFilter_returns
                "notificationEndpoints" testFindOptions testListByOrgID _ tt
                decodeNotificationEndpointFilter_orgID)
    as (_ & Horg & Hrt & _).
  exact (conj Horg Hrt).
Defined.

(** Requests naming the endpoint of the tests on their path. *)
Definition testByID : @Request string :=
  {| reqParams := <["id" := "020f755c3c082000"]> ∅;
     reqQuery := ∅; reqBody := ∅;
     reqAuthorizer := Some "6f626f7274697320" |}.

Definition testPutRequest : @Request string :=
  {| reqParams := <["id" := "0b501e7e557ab1ed"]> ∅;
     reqQuery := ∅; reqBody := testSlackWire;
     reqAuthorizer := Some "6f626f7274697320" |}.

Definition testPatchRequest : @Request string :=
  {| reqParams := <["id" := "020f755c3c082000"]> ∅;
     reqQuery := ∅; reqBody := <["name" := JStr "example"]> ∅;
     reqAuthorizer := Some "6f626f7274697320" |}.

(** An endpoint service over a store, as far as the handlers use it. *)
Definition testDeleteF (store : gmap string (@NotificationEndpoint string instant))
    (i : string)
  : gmap string (@NotificationEndpoint string instant) * option Error :=
  match store !! i with
  | Some _ => (delete i store, None)
  | None => (store, Some errNotFound)
  end.

Definition testFindByIDF (store : gmap string (@NotificationEndpoint string instant))
    (i : string)
  : gmap string (@NotificationEndpoint string instant)
    * result (@NotificationEndpoint string instant) :=
  match store !! i with
  | Some e => (store, Ok e)
  | None => (store, Err errNotFound)
  end.

Definition testNoLabels (_ : list (@LabelMapping string)) (_ : string)
  : list string * option Error := ([], None).

Definition testNoLabelsR (_ : list (@LabelMapping string)) (_ : string)
  : result (list string) := Ok [].

Lemma handleDeleteNotificationEndpoint_witness :
  handleDeleteNotificationEndpoint testDeleteF testStore testByID
  = (∅, DeleteNoContent)
  /\ exists i, decodeGetNotificationEndpointRequest testByID = Ok i
               /\ testDeleteF testStore i = (∅, None).
Proof.
  assert (H : handleDeleteNotificationEndpoint testDeleteF testStore testByID
              = (∅, DeleteNoContent)) by (vm_compute; reflexivity).
  split; [exact H|].
  exact (proj1 (proj1 (handleDeleteNotificationEndpoint_spec
                         testDeleteF testStore ∅ testByID DeleteNoContent H))
               eq_refl).
Defined.

Lemma handleGetNotificationEndpoint_witness :
  exists body,
    handleGetNotificationEndpoint testFindByIDF testNoLabels testStore []
      testByID
    = (testStore, RespEndpoint 200 body)
    /\ exists i,
        decodeGetNotificationEndpointRequest testByID = Ok i
        /\ testFindByIDF testStore i = (testStore, Ok (respEndpoint body)).
Proof.
  assert (H : exists body,
             handleGetNotificationEndpoint testFindByIDF testNoLabels
               testStore [] testByID
             = (testStore, RespEndpoint 200 body)).
  { eexists. vm_compute. reflexivity. }
  destruct H as (body & H). exists body. split; [exact H|].
  destruct (handleGetNotificationEndpoint_spec _ _ _ _ _ _ _ H) as (Hok & _).
  destruct (Hok 200 body eq_refl) as (_ & i & labels & Hdec & Hfind & _).
  exists i. split; [exact Hdec|exact Hfind].
Defined.

(** The replace scenario: the service stores what the update's mutator
    returns. *)
Definition testUpdateEndpoint (edp : @NotificationEndpoint string instant)
  : @EndpointUpdate string instant :=
  {| UpdateType := "endpoint"; updateID := baseID (Base edp);
     Fn := fun _ _ => (edp, None) |}.

Definition testUpdateF (store : gmap string (@NotificationEndpoint string instant))
    (u : @EndpointUpdate string instant)
  : gmap string (@NotificationEndpoint string instant)
    * result (@NotificationEndpoint string instant) :=
  let edp := (Fn u testNow (EpSlack testSlack)).1 in
  (<[updateID u := edp]> store, Ok edp).

Lemma handlePutNotificationEndpoint_witness :
  exists svc' body,
    handlePutNotificationEndpoint testUpdateEndpoint testUpdateF testNoLabels
      testStore [] testPutRequest
    = (svc', RespEndpoint 200 body)
    /\ exists edp,
         decodePutNotificationEndpointRequest testPutRequest = Ok edp
         /\ IDFromString (ByName (reqParams testPutRequest) "id")
            = Ok (baseID (Base edp))
         /\ testUpdateF testStore (testUpdateEndpoint edp)
            = (svc', Ok (respEndpoint body)).
Proof.
  assert (H : exists svc' body,
             handlePutNotificationEndpoint testUpdateEndpoint testUpdateF
               testNoLabels testStore [] testPutRequest
             = (svc', RespEndpoint 200 body)).
  { eexists _, _. vm_compute. reflexivity. }
  destruct H as (svc' & body & H). exists svc', body. split; [exact H|].
  destruct (handlePutNotificationEndpoint_spec _ _ _ _ _ _ _ _ _ H)
    as (_ & edp & Hdec & Hid & Hupd & _).
  exists edp. split; [exact Hdec|]. split; [exact Hid|exact Hupd].
Defined.

Definition testPatchValid (_ : @NotificationEndpointUpdate) : option Error :=
  None.

Lemma handlePatchNotificationEndpoint_update_witness :
  exists svc' body,
    handlePatchNotificationEndpoint testPatchValid
      (fun store u => Service_Update parse_ok http_ok store testNow u)
      testNoLabelsR testStore [] testPatchRequest
    = (svc', RespEndpoint 200 body)
    /\ decodePatchNotificationEndpointRequest testPatchValid testPatchRequest
       = Ok {| patchID := "020f755c3c082000"; patchUpdate := nameOnly "example" |}.
Proof.
  assert (H : exists svc' body,
             handlePatchNotificationEndpoint testPatchValid
               (fun store u => Service_Update parse_ok http_ok store testNow u)
               testNoLabelsR testStore [] testPatchRequest
             = (svc', RespEndpoint 200 body)).
  { eexists _, _. vm_compute. reflexivity. }
  destruct H as (svc' & body & H). exists svc', body. split; [exact H|].
  destruct (handlePatchNotificationEndpoint_update _ _ _ _ _ _ _ _ _ H)
    as (req & Hdec & _).
  rewrite Hdec. vm_compute in Hdec. injection Hdec as <-. reflexivity.
Defined.

(** A create request whose body has no type. *)
Definition testBadPost : @Request string :=
  {| reqParams := ∅; reqQuery := ∅;
     reqBody := <["name" := JStr "hello"]> ∅;
     reqAuthorizer := Some "6f626f7274697320" |}.

Lemma handlePostNotificationEndpoint_errors_witness :
  exists e st',
    handlePostNotificationEndpoint testCreate (fun l : string => l)
      testFindLabel testCreateMapping "notificationEndpoints"
      tt [] testBadPost
    = (tt, st', RespError e)
    /\ st' = [].
Proof.
  assert (H : exists e st',
             handlePostNotificationEndpoint testCreate (fun l : string => l)
               testFindLabel testCreateMapping "notificationEndpoints"
               tt [] testBadPost
             = (tt, st', RespError e)).
  { eexists _, _. vm_compute. reflexivity. }
  destruct H as (e & st' & H). exists e, st'. split; [exact H|].
  destruct (handlePostNotificationEndpoint_errors
              _ _ _ _ _ _ _ _ _ _ _ H) as (Hst & _).
  exact (Hst e eq_refl).
Defined.

(** Two change-sets through the client that differ in what their mutators
    do to the URL only. *)
Definition testRename (url : string) : @EndpointUpdate string instant :=
  {| UpdateType := "change_set"; updateID := "020f755c3c082000";
     Fn := fun _ e =>
       match e with
       | EpHTTP h =>
         (EpHTTP {| httpBase := withName (withID (httpBase h) "020f755c3c082000")
                                  "example";
                    httpURL := url; httpHeaders := httpHeaders h;
                    httpToken := httpToken h; httpUsername := httpUsername h;
                    httpPassword := httpPassword h;
                    httpAuthMethod := httpAuthMethod h;
                    httpMethod := httpMethod h;
                    httpContentTemplate := httpContentTemplate h |},
          if decide (url = "") then Some errInvalidUpdate else None)
       | e => (e, None)
       end |}.

Lemma Client_patch_sends_base_only_witness :
  Client_patch refusePatch tt (testRename "http://a.example")
  = Client_patch refusePatch tt (testRename "http://b.example").
Proof.
  apply (Client_patch_sends_base_only refusePatch tt
           (testRename "http://a.example") (testRename "http://b.example"));
    reflexivity.
Defined.

(** The same mutator, once with and once without an error beside the
    endpoint it returns. *)
Definition testKeep (fail : bool) : @EndpointUpdate string instant :=
  {| UpdateType := "endpoint"; updateID := "020f755c3c082000";
     Fn := fun _ e => (e, if fail then Some errInvalidUpdate else None) |}.

Lemma Client_update_ignores_mutator_error_witness :
  Client_update refusePut tt (testKeep true)
  = Client_update refusePut tt (testKeep false).
Proof.
  apply (Client_update_ignores_mutator_error refusePut tt
           (testKeep true) (testKeep false)).
  reflexivity.
Defined.

(** Two results of two and one tables, and a writer that records what it
    is handed. *)
Definition testWrite (w : list string) (b : string)
  : list string * (nat * option string) :=
  ((w ++ [b])%list, (String.length b, None)).

Definition testResults : list (@Result nat string) :=
  [ {| resultTables := [ {| tableCols := [1; 2]; tableErr := None |};
                         {| tableCols := [3]; tableErr := None |} ];
       resultErr := None |};
    {| resultTables := [ {| tableCols := [4; 5]; tableErr := None |} ];
       resultErr := None |} ].

Lemma NullEncoder_Encode_errorFree_witness :
  errorFree testResults
  /\ NullEncoder_Encode testWrite [] testResults
     = ({| releasedCols := [1; 2; 3; 4; 5]; iteratorReleases := 1;
           writer := ["null"] |}, (4, None)).
Proof.
  assert (H : errorFree testResults) by (repeat constructor).
  split; [exact H|].
  exact (NullEncoder_Encode_errorFree testWrite [] testResults H).
Defined.

(** A table that fails after its first column reader: nothing is
    written. *)
Example NullEncoder_Encode_failing_table :
  NullEncoder_Encode testWrite []
    [ {| resultTables := [ {| tableCols := [1]; tableErr := Some "boom" |};
                           {| tableCols := [2]; tableErr := None |} ];
         resultErr := None |} ]
  = ({| releasedCols := [1]; iteratorReleases := 1; writer := [] |},
     (0, Some "boom")).
Proof. reflexivity. Qed.

(** A server that answers every create with the slack endpoint of the
    tests.  The caller's endpoint takes over its identifier, while the key
    of its token stays the one derived before the identifier was known. *)
Definition testPostServer (srv : unit) (_ : gmap string jvalue)
  : unit * result (gmap string jvalue) :=
  (srv, Ok (MarshalJSON (EpSlack testSlack))).

Example Client_Create_keeps_early_key :
  Client_Create testPostServer tt (EpSlack testSlackNew)
  = (tt,
     (EpSlack
        {| slackBase :=
             {| baseID := "020f755c3c082000"; baseOrgID := "020f755c3c082000";
                baseName := "hello"; baseDescription := "";
                baseStatus := Active;
                baseCreatedAt := zeroValue; baseUpdatedAt := zeroValue |};
           URL := "http://example.com";
           Token := {| Key := "-token"; Value := Some "tok" |} |},
      None)).
Proof. by vm_compute. Qed.
